(** * claude-code-validator: the validation engine, rule discovery and
      project-root lookup, embedded from the TypeScript sources.

    - [src/core/validator.ts]   : [createValidator], [registerRule],
      [validate], [parseInput], [formatErrors]
    - [src/utils/rule-loader.ts]: [loadRules], [isValidationRule],
      [findProjectRoot]
    - [src/types.ts]            : the record types

    JavaScript calls are modelled in a state-and-exception monad over an
    arbitrary [World]: a rule callback, a hook handler, a module import
    may read and change the world, return a value, or throw.  [await]
    is sequencing: the engine never starts two calls at once. *)

From Equations Require Import Equations.
From stdpp Require Import gmap strings list pretty.

(** ** JavaScript values and operators used by the sources *)

(** The line feed, written [\n] in the sources. *)
Definition nl : string := String (Ascii.ascii_of_nat 10) EmptyString.

(** A value of TypeScript type [string | undefined] is truthy when it is a
    non-empty string. *)
Definition truthy (v : option string) : bool :=
  match v with
  | Some s => negb (String.eqb s "")
  | None => false
  end.

(** [a || b] on two optional strings. *)
Definition js_or (a b : option string) : option string :=
  if truthy a then a else b.

(** [a || d] where [d] is a string literal: the result is a string. *)
Definition js_or_default (a : option string) (d : string) : string :=
  match a with
  | Some s => if String.eqb s "" then d else s
  | None => d
  end.

(** [Array.prototype.join] on an array of strings. *)
Fixpoint join (sep : string) (l : list string) : string :=
  match l with
  | [] => ""
  | [x] => x
  | x :: t => x +:+ sep +:+ join sep t
  end.

(** [String.prototype.endsWith] and [String.prototype.includes]. *)
Definition endsWith (s suffix : string) : bool :=
  Nat.leb (String.length suffix) (String.length s)
  && String.eqb
       (String.substring (String.length s - String.length suffix)
          (String.length suffix) s)
       suffix.

Fixpoint includes (s sub : string) : bool :=
  String.prefix sub s
  || match s with
     | EmptyString => false
     | String _ s' => includes s' sub
     end.

(** ** Outcomes and the effect monad *)

(** The value carried by a JavaScript exception. *)
Definition exn : Type := string.

Inductive outcome (A : Type) : Type :=
| Returned (a : A)
| Thrown (e : exn).
Arguments Returned {A} a.
Arguments Thrown {A} e.

Section Effects.
Variable World : Type.

Definition M (A : Type) : Type := World -> outcome A * World.

Definition ret {A} (a : A) : M A := fun w => (Returned a, w).

Definition throw {A} (e : exn) : M A := fun w => (Thrown e, w).

Definition bind {A B} (m : M A) (k : A -> M B) : M B :=
  fun w =>
    match m w with
    | (Returned a, w') => k a w'
    | (Thrown e, w') => (Thrown e, w')
    end.

(** [try { m } catch (error) { h error }] *)
Definition try_catch {A} (m : M A) (h : exn -> M A) : M A :=
  fun w =>
    match m w with
    | (Returned a, w') => (Returned a, w')
    | (Thrown e, w') => h e w'
    end.
End Effects.

Arguments ret {World A} a.
Arguments throw {World A} e.
Arguments bind {World A B} m k.
Arguments try_catch {World A} m h.

Declare Scope js_scope.
Delimit Scope js_scope with js.
Notation "x <- m ;; k" := (bind m (fun x => k))
  (at level 100, m at next level, right associativity) : js_scope.
Notation "m ;;; k" := (bind m (fun _ => k))
  (at level 100, right associativity) : js_scope.
Local Open Scope js_scope.

(** A call that returns [a] whatever the world it starts from. *)
Definition returns {World A} (m : M World A) (a : A) : Prop :=
  forall w, exists w', m w = (Returned a, w').

(** A call that throws whatever the world it starts from. *)
Definition raises {World A} (m : M World A) : Prop :=
  forall w, exists e w', m w = (Thrown e, w').

(** A call that returns, with some value, whatever the world it starts
    from. *)
Definition completes {World A} (m : M World A) : Prop :=
  forall w, exists a w', m w = (Returned a, w').

(** ** Arrays shared with handlers

    A handler of the hook bus is called with the arguments of the event.
    On [validate:after] the second argument is the engine's own [errors]
    array, not a copy: what a handler pushes to it, or removes from it,
    is there when the engine reads the array again.  The state a handler
    runs in is therefore the world together with that array. *)
Record Live (World : Type) : Type := {
  liveWorld : World;
  liveErrors : list string
}.
Arguments liveWorld {World} _.
Arguments liveErrors {World} _.

(** A call inside a handler that is handed no array and so can change
    the world only. *)
Definition onWorld {World A} (m : M World A) : M (Live World) A :=
  fun s =>
    let (r, w') := m (liveWorld s) in
    (r, {| liveWorld := w'; liveErrors := liveErrors s |}).

(** An event fired without the array: the handlers have nothing of the
    engine to write to. *)
Definition detached {World A} (m : M (Live World) A) : M World A :=
  fun w =>
    let (r, s) := m {| liveWorld := w; liveErrors := [] |} in
    (r, liveWorld s).

(** An event fired with the array [errors]: the call gives back the array
    as the handlers left it. *)
Definition sharing {World A} (errors : list string) (m : M (Live World) A)
  : M World (A * list string) :=
  fun w =>
    match m {| liveWorld := w; liveErrors := errors |} with
    | (Returned a, s) => (Returned (a, liveErrors s), liveWorld s)
    | (Thrown e, s) => (Thrown e, liveWorld s)
    end.

(** ** [src/types.ts] *)

Module HookInput.
(** [ClaudeCodeHookInput.tool_input]; the index signature admits further
    keys, which no function of the engine reads. *)
Record tool_input_t : Type := {
  file_path : option string;
  content : option string;
  new_string : option string;
  old_string : option string
}.

(** [ClaudeCodeHookInput] *)
Record t : Type := {
  tool_name : string;
  tool_input : tool_input_t
}.
End HookInput.

Inductive Operation : Type := edit | write.

Record ValidationContext : Type := {
  toolName : string;
  filePath : string;
  content : string;
  oldContent : option string;   (* [oldContent?: string] *)
  operation : Operation
}.

Record ValidationResult : Type := {
  valid : bool;
  errors : list string
}.

(** [formatErrors], the closure stored in the result: it reads the [errors]
    array of the result it belongs to. *)
Definition errorsHeader : string :=
  nl +:+ "⚠️  VALIDATION ERRORS:" +:+ nl +:+ nl.

Definition formatErrors (r : ValidationResult) : string :=
  if Nat.eqb (length (errors r)) 0 then ""
  else errorsHeader +:+ join (nl +:+ nl) (errors r).

(** [parseInput] *)
Definition parseInput (input : HookInput.t) : ValidationContext :=
  let toolName := HookInput.tool_name input in
  let toolInput := HookInput.tool_input input in
  {| toolName := toolName;
     filePath := js_or_default (HookInput.file_path toolInput) "";
     content := js_or_default
                  (js_or (HookInput.content toolInput)
                         (HookInput.new_string toolInput)) "";
     oldContent := Some (js_or_default (HookInput.old_string toolInput) "");
     operation := if String.eqb toolName "Edit" then edit else write |}.

(** ** The lifecycle hook bus

    [createHooks] comes from the hookable package, a dependency of the
    repository.  The engine uses two of its methods: [hook(name, fn)]
    pushes [fn] at the end of the handler array kept under [name], and
    [callHook(name, ...args)] folds that array into one promise chain,
    [hooks.reduce((p, fn) => p.then(() => fn(...args)), Promise.resolve())]:
    the handlers run one after the other in the order of the array, the
    first rejection ends the chain, and the chain resolves to what the
    last handler returned ([undefined] for an empty array).

    Handlers and rule callbacks are taken to leave alone the context
    object, the rule list and the handler table; the [errors] array given
    to [validate:after] they may change. *)

(** The arguments the engine passes to a channel: the context and, on
    [validate:after] only, the [errors] array; [arg_errors] tells whether
    the array is handed over, its contents are the [liveErrors] of the
    state. *)
Record HookArgs : Type := {
  arg_context : ValidationContext;
  arg_errors : bool
}.

Section Hookable.
Variable World : Type.

(** What a handler resolves to: [None] stands for [undefined]. *)
Definition Handler : Type :=
  HookArgs -> M (Live World) (option (list string)).

Definition createHooks : gmap string (list Handler) := ∅.

Definition handlersOf (hooks : gmap string (list Handler)) (name : string)
  : list Handler :=
  default [] (hooks !! name).

Definition hook (hooks : gmap string (list Handler)) (name : string)
    (fn : Handler) : gmap string (list Handler) :=
  <[name := handlersOf hooks name ++ [fn]]> hooks.

Fixpoint serialTaskCaller (hs : list Handler) (args : HookArgs)
    (last : option (list string)) : M (Live World) (option (list string)) :=
  match hs with
  | [] => ret last
  | fn :: hs' => r <- fn args ;; serialTaskCaller hs' args r
  end.

Definition callHook (hooks : gmap string (list Handler)) (name : string)
    (args : HookArgs) : M (Live World) (option (list string)) :=
  serialTaskCaller (handlersOf hooks name) args None.
End Hookable.

Arguments createHooks {World}.
Arguments handlersOf {World} hooks name.
Arguments hook {World} hooks name fn.
Arguments serialTaskCaller {World} hs args last.
Arguments callHook {World} hooks name args.

(** ** [src/types.ts]: the rule contract *)

Record ValidationRule (World : Type) : Type := {
  name : string;
  description : string;
  shouldRun : ValidationContext -> M World bool;
  validate : ValidationContext -> M World (list string)
}.
Arguments name {World} _.
Arguments description {World} _.
Arguments shouldRun {World} _ _.
Arguments validate {World} _ _.

(** [defineCodeRule] *)
Definition defineCodeRule {World} (rule : ValidationRule World)
  : ValidationRule World := rule.

(** ** [src/core/validator.ts]: the validation engine *)

Module Validator.
Section Validator.
Variable World : Type.

(** The two variables closed over by the object [createValidator]
    returns. *)
Record t : Type := {
  hooks : gmap string (list (Handler World));
  rules : list (ValidationRule World)
}.

Definition createValidator : t :=
  {| hooks := createHooks; rules := [] |}.

(** The channel name [`validate:${rule.name}`]. *)
Definition channel (ruleName : string) : string := "validate:" +:+ ruleName.

(** [async (context) => { return await rule.validate(context); }]: the
    rule is given the context and nothing else. *)
Definition ruleHandler (rule : ValidationRule World) : Handler World :=
  fun args =>
    onWorld (l <- validate rule (arg_context args) ;; ret (Some l)).

Definition registerRule (v : t) (rule : ValidationRule World) : t :=
  {| rules := rules v ++ [rule];
     hooks := hook (hooks v) (channel (name rule)) (ruleHandler rule) |}.

(** One turn of [for (const rule of rules)]; [errors] is the array as it
    stands when the turn starts. *)
Definition runRule (hs : gmap string (list (Handler World)))
    (context : ValidationContext) (errors : list string)
    (rule : ValidationRule World) : M World (list string) :=
  b <- shouldRun rule context ;;
  if b then
    result <- detached
                (callHook hs (channel (name rule))
                   {| arg_context := context; arg_errors := false |}) ;;
    match result with
    | Some l => if Nat.ltb 0 (length l) then ret (errors ++ l) else ret errors
    | None => ret errors
    end
  else ret errors.

Fixpoint runRules (hs : gmap string (list (Handler World)))
    (context : ValidationContext) (rs : list (ValidationRule World))
    (errors : list string) : M World (list string) :=
  match rs with
  | [] => ret errors
  | rule :: rs' =>
      errors' <- runRule hs context errors rule ;;
      runRules hs context rs' errors'
  end.

Definition validate (v : t) (input : HookInput.t) : M World ValidationResult :=
  let context := parseInput input in
  detached
    (callHook (hooks v) "validate:before"
       {| arg_context := context; arg_errors := false |}) ;;;
  pushed <- runRules (hooks v) context (rules v) [] ;;
  after <- sharing pushed
             (callHook (hooks v) "validate:after"
                {| arg_context := context; arg_errors := true |}) ;;
  let errors := snd after in
  ret {| valid := Nat.eqb (length errors) 0; errors := errors |}.

Definition getRules (v : t) : list (ValidationRule World) := rules v.

Definition getHooks (v : t) : gmap string (list (Handler World)) := hooks v.

(** A caller's [validator.getHooks().hook(name, fn)]. *)
Definition addHook (v : t) (hookName : string) (fn : Handler World) : t :=
  {| rules := rules v; hooks := hook (hooks v) hookName fn |}.
End Validator.

Arguments hooks {World} _.
Arguments rules {World} _.
Arguments createValidator {World}.
Arguments ruleHandler {World} rule.
Arguments registerRule {World} v rule.
Arguments runRule {World} hs context errors rule.
Arguments runRules {World} hs context rs errors.
Arguments validate {World} v input.
Arguments getRules {World} v.
Arguments getHooks {World} v.
Arguments addHook {World} v hookName fn.
End Validator.

(** The engines a program can hold: [createValidator()], then any number
    of [registerRule] calls and of handlers added through [getHooks()]. *)
Inductive built {World : Type} : Validator.t World -> Prop :=
| built_create : built Validator.createValidator
| built_register v rule :
    built v -> built (Validator.registerRule v rule)
| built_hook v hookName fn :
    built v -> built (Validator.addHook v hookName fn).

(** The context handed to the [validate:before] channel and to the
    channel of a rule. *)
Definition contextArgs (context : ValidationContext) : HookArgs :=
  {| arg_context := context; arg_errors := false |}.

(** The arguments of the [validate:after] channel. *)
Definition afterArgs (context : ValidationContext) : HookArgs :=
  {| arg_context := context; arg_errors := true |}.

(** The handlers of [validate:after] leave the array as they find it. *)
Definition afterKeepsErrors {World} (v : Validator.t World)
    (context : ValidationContext) : Prop :=
  forall s r s',
    callHook (Validator.hooks v) "validate:after" (afterArgs context) s
    = (Returned r, s') ->
    liveErrors s' = liveErrors s.

(** The loop of the command line, [for (const rule of rules)
    validator.registerRule(rule)]. *)
Definition registerAll {World} (v : Validator.t World)
    (rs : list (ValidationRule World)) : Validator.t World :=
  fold_left Validator.registerRule rs v.

(** Rules and requests used as test data. *)
Definition constantRule {World} (ruleName : string) (applies : bool)
    (diagnostics : list string) : ValidationRule World :=
  {| name := ruleName;
     description := "returns a fixed list";
     shouldRun := fun _ => ret applies;
     validate := fun _ => ret diagnostics |}.

Definition failingRule {World} (ruleName : string) (error : exn)
  : ValidationRule World :=
  {| name := ruleName;
     description := "throws from validate";
     shouldRun := fun _ => ret true;
     validate := fun _ => throw error |}.

(** A rule that writes each of its calls to the world, a journal. *)
Definition journal (line : string) : M (list string) unit :=
  fun w => (Returned tt, w ++ [line]).

Definition tracingRule (ruleName label : string) (diagnostics : list string)
  : ValidationRule (list string) :=
  {| name := ruleName;
     description := "records its calls";
     shouldRun := fun _ => journal (label +:+ ".shouldRun") ;;; ret true;
     validate := fun _ => journal (label +:+ ".validate") ;;; ret diagnostics |}.

(** The rule of the specification's scenario: it flags any content that
    contains [console.log]. *)
Definition noConsoleLog {World} : ValidationRule World :=
  {| name := "no-console-log";
     description := "flags console.log";
     shouldRun := fun _ => ret true;
     validate := fun context =>
       ret (if includes (content context) "console.log"
            then ["console.log is not allowed"] else []) |}.

Definition writeRequest (path text : string) : HookInput.t :=
  {| HookInput.tool_name := "Write";
     HookInput.tool_input :=
       {| HookInput.file_path := Some path;
          HookInput.content := Some text;
          HookInput.new_string := None;
          HookInput.old_string := None |} |}.

(** ** [src/utils/rule-loader.ts]: rule discovery *)

(** The values a module can export, as far as [isValidationRule] looks
    into them.  [JsObject] lists the properties of an object in the order
    in which they were defined; a function is identified by a label. *)
#[warnings="-register-all"]
Inductive JsValue : Type :=
| JsUndefined
| JsNull
| JsBoolean (b : bool)
| JsNumber (n : Z)
| JsString (s : string)
| JsFunction (label : string)
| JsObject (props : list (string * JsValue)).

(** The [typeof] operator. *)
Definition typeof (v : JsValue) : string :=
  match v with
  | JsUndefined => "undefined"
  | JsNull => "object"
  | JsBoolean _ => "boolean"
  | JsNumber _ => "number"
  | JsString _ => "string"
  | JsFunction _ => "function"
  | JsObject _ => "object"
  end.

(** Truthiness, as [obj && ...] tests it. *)
Definition toBoolean (v : JsValue) : bool :=
  match v with
  | JsUndefined | JsNull => false
  | JsBoolean b => b
  | JsNumber n => negb (Z.eqb n 0)
  | JsString s => negb (String.eqb s "")
  | JsFunction _ | JsObject _ => true
  end.

(** An object holds one value for each name: a property defined later
    under a name already there replaces the earlier one. *)
Fixpoint lookupFrom (found : JsValue) (props : list (string * JsValue))
    (key : string) : JsValue :=
  match props with
  | [] => found
  | (k, v) :: props' =>
      lookupFrom (if String.eqb k key then v else found) props' key
  end.

Definition lookupProp (props : list (string * JsValue)) (key : string) : JsValue :=
  lookupFrom JsUndefined props key.

(** The property read [obj.key], on a value that passed [obj &&]. *)
Definition getProp (obj : JsValue) (key : string) : JsValue :=
  match obj with
  | JsObject props => lookupProp props key
  | _ => JsUndefined
  end.

Definition isValidationRule (obj : JsValue) : bool :=
  toBoolean obj
  && String.eqb (typeof obj) "object"
  && String.eqb (typeof (getProp obj "name")) "string"
  && String.eqb (typeof (getProp obj "description")) "string"
  && String.eqb (typeof (getProp obj "shouldRun")) "function"
  && String.eqb (typeof (getProp obj "validate")) "function".

(** The segments of a path written with ['/']. *)
Fixpoint segmentsFrom (current s : string) : list string :=
  match s with
  | EmptyString => if String.eqb current "" then [] else [current]
  | String c s' =>
      if Ascii.eqb c (Ascii.ascii_of_nat 47) then
        if String.eqb current "" then segmentsFrom "" s'
        else current :: segmentsFrom "" s'
      else segmentsFrom (current +:+ String c EmptyString) s'
  end.

Definition splitPath (p : string) : list string := segmentsFrom "" p.

(** [path.relative(from, to)] on two absolute paths, as segments: up from
    [from] to the deepest directory the two share, then down to [to]. *)
Fixpoint relativeTo (from to : list string) : list string :=
  match from, to with
  | f :: from', t :: to' =>
      if String.eqb f t then relativeTo from' to'
      else repeat ".." (length from) ++ to
  | _, _ => repeat ".." (length from) ++ to
  end.

(** A relative path that leaves the directory it is relative to. *)
Definition escapes (rel : list string) : bool :=
  match rel with
  | seg :: _ => String.eqb seg ".."
  | [] => false
  end.

(** The [ignore] option handed to [glob]:
    [['**/*.test.ts', '**/*.spec.ts', '**/node_modules/**']].  [glob]
    matches these patterns, which are relative, against the path of a
    file relative to the working directory of the process, and [**]
    stands for any run of directories but never for [..]: a file is
    excluded when it lies under the working directory and either its
    name ends in [.test.ts] or in [.spec.ts], or [node_modules] is one of
    the directories above it.  A file outside the working directory is
    never excluded. *)
Definition ignored (cwd : list string) (file : string) : bool :=
  let rel := relativeTo cwd (splitPath file) in
  negb (escapes rel)
  && (endsWith (List.last rel "") ".test.ts"
      || endsWith (List.last rel "") ".spec.ts"
      || existsb (String.eqb "node_modules") (removelast rel)).

Inductive ConsoleLine : Type :=
| console_warn (message : string) (error : exn)
| console_error (message : string) (error : exn).

Section Loader.
Variable World : Type.

(** What discovery asks of its surroundings: the files a glob pattern
    matches before the [ignore] option is applied, the dynamic [import]
    of a file, which yields [Object.values(module)], and the working
    directory of the process, [process.cwd()], as segments.  The first
    two may throw. *)
Record LoaderEnv : Type := {
  globMatches : string -> M World (list string);
  importValues : string -> M World (list JsValue);
  workingDirectory : list string
}.

(** The world together with what was written to the console. *)
Record LoaderState : Type := {
  world : World;
  console : list ConsoleLine
}.

Definition liftWorld {A} (m : M World A) : M LoaderState A :=
  fun s =>
    let (r, w') := m (world s) in
    (r, {| world := w'; console := console s |}).

Definition log (line : ConsoleLine) : M LoaderState unit :=
  fun s => (Returned tt, {| world := world s; console := console s ++ [line] |}).

(** [glob(pattern, { absolute: true, ignore })] *)
Definition glob (env : LoaderEnv) (pattern : string) : M LoaderState (list string) :=
  files <- liftWorld (globMatches env pattern) ;;
  ret (List.filter
         (fun file => negb (ignored (workingDirectory env) file)) files).

(** The body of [for (const file of ruleFiles)], with its own [try]. *)
Definition loadFile (env : LoaderEnv) (rules : list JsValue) (file : string)
  : M LoaderState (list JsValue) :=
  try_catch
    (exports <- liftWorld (importValues env file) ;;
     ret (rules ++ List.filter isValidationRule exports))
    (fun error =>
       log (console_warn ("Failed to load rule from " +:+ file +:+ ":") error) ;;;
       ret rules).

Fixpoint loadFiles (env : LoaderEnv) (ruleFiles : list string)
    (rules : list JsValue) : M LoaderState (list JsValue) :=
  match ruleFiles with
  | [] => ret rules
  | file :: ruleFiles' =>
      rules' <- loadFile env rules file ;;
      loadFiles env ruleFiles' rules'
  end.

Definition loadRules (env : LoaderEnv) (rulesDir : string)
  : M LoaderState (list JsValue) :=
  try_catch
    (ruleFiles <- glob env (rulesDir +:+ "/**/*.{ts,js}") ;;
     loadFiles env ruleFiles [])
    (fun error =>
       log (console_error "Error loading rules:" error) ;;;
       ret []).
End Loader.

Arguments globMatches {World} _ _.
Arguments importValues {World} _ _.
Arguments workingDirectory {World} _.
Arguments world {World} _.
Arguments console {World} _.
Arguments liftWorld {World A} m.
Arguments log {World} line.
Arguments glob {World} env pattern.
Arguments loadFile {World} env rules file.
Arguments loadFiles {World} env ruleFiles rules.
Arguments loadRules {World} env rulesDir.

(** The pattern [`${rulesDir}/**/*.{ts,js}`]. *)
Definition rulePattern (rulesDir : string) : string := rulesDir +:+ "/**/*.{ts,js}".

(** The message [`Failed to load rule from ${file}:`]. *)
Definition loadFailure (file : string) : string :=
  "Failed to load rule from " +:+ file +:+ ":".

(** A table of what each file yields when imported, for surroundings in
    which that does not depend on the world. *)
Definition importsAs {World} (env : LoaderEnv World) (file : string)
    (o : outcome (list JsValue)) : Prop :=
  match o with
  | Returned exports => returns (importValues env file) exports
  | Thrown e => forall w, exists w', importValues env file w = (Thrown e, w')
  end.

(** What discovery collects from such a table, and the warnings it
    writes, file after file. *)
Definition collected (modules : string -> outcome (list JsValue))
    (files : list string) : list JsValue :=
  flat_map (fun file =>
              match modules file with
              | Returned exports => List.filter isValidationRule exports
              | Thrown _ => []
              end) files.

Definition warnings (modules : string -> outcome (list JsValue))
    (files : list string) : list ConsoleLine :=
  flat_map (fun file =>
              match modules file with
              | Returned _ => []
              | Thrown e => [console_warn (loadFailure file) e]
              end) files.

(** Surroundings made of a fixed directory listing and a fixed table of
    modules, for a process started in ['/']. *)
Definition directoryEnv (rulesDir : string) (files : list string)
    (modules : string -> outcome (list JsValue)) : LoaderEnv unit :=
  {| globMatches := fun pattern =>
       ret (if String.eqb pattern (rulePattern rulesDir) then files else []);
     importValues := fun file w => (modules file, w);
     workingDirectory := [] |}.


(** Surroundings whose directory enumeration fails. *)
Definition missingDirectoryEnv (error : exn) : LoaderEnv unit :=
  {| globMatches := fun _ => throw error;
     importValues := fun _ => ret [];
     workingDirectory := [] |}.

Definition ruleObject (ruleName : string) : JsValue :=
  JsObject [("name", JsString ruleName);
            ("description", JsString "a rule");
            ("shouldRun", JsFunction "shouldRun");
            ("validate", JsFunction "validate")].

(** An object with everything but [validate]. *)
Definition notARule : JsValue :=
  JsObject [("name", JsString "not-a-rule");
            ("description", JsString "no validate");
            ("shouldRun", JsFunction "shouldRun")].

(** The directory of the specification's scenario, with one more file
    whose import fails. *)
Definition scenarioModules (file : string) : outcome (list JsValue) :=
  if String.eqb file "/rules/rule-a.ts" then Returned [ruleObject "rule-a"]
  else if String.eqb file "/rules/rule-a.test.ts" then Returned [ruleObject "rule-a-test"]
  else if String.eqb file "/rules/not-a-rule.ts" then Returned [notARule]
  else Thrown "SyntaxError".

(** ** [src/utils/rule-loader.ts]: [findProjectRoot]

    [resolve(startDir)] yields an absolute, normalised POSIX path; such a
    path is the list of its segments, and [[]] is the root ['/'].
    [dirname] drops the last segment and [join(dir, seg)] adds one. *)
Definition Path : Type := list string.

Definition root : Path := [].

Definition dirname (p : Path) : Path := removelast p.

Definition joinPath (p : Path) (segment : string) : Path := p ++ [segment].

Section ProjectRoot.
(** [existsSync], on the file system as it stands during the search. *)
Variable existsSync : Path -> bool.

Equations? findProjectRoot (currentDir : Path) : option Path
  by wf (length currentDir) lt :=
findProjectRoot [] := None;
findProjectRoot (seg :: rest) :=
  if existsSync (joinPath (seg :: rest) ".claude")
  then Some (seg :: rest)
  else findProjectRoot (dirname (seg :: rest)).
Proof.
  unfold dirname. clear findProjectRoot.
  revert seg. induction rest as [|x rest IH]; intros seg; simpl in *.
  - lia.
  - specialize (IH x). lia.
Qed.
End ProjectRoot.

(** The diagnostics before a position, each followed by the separator, and
    those after it, each preceded by the separator. *)
Fixpoint eachThen (sep : string) (l : list string) : string :=
  match l with
  | [] => ""
  | x :: t => x +:+ sep +:+ eachThen sep t
  end.

Fixpoint eachAfter (sep : string) (l : list string) : string :=
  match l with
  | [] => ""
  | x :: t => sep +:+ x +:+ eachAfter sep t
  end.

(** ** The command line: [validate] and [list-rules]

    The two [run] functions of the command file, in the version that looks
    for the project root first.  What they take from their surroundings:
    the discovery surroundings, the working directory and [existsSync] for
    [findProjectRoot()], [path.resolve(projectRoot, rulesDir)], and the
    reading of the request, [JSON.parse(await Bun.stdin.text())], which
    throws when the text cannot be read or parsed and is taken to have
    the shape of [ClaudeCodeHookInput] otherwise.  [ruleOf] gives, for an
    object that discovery collected, the rule the engine calls. *)

Inductive OutputLine : Type :=
| stderr_text (text : string)        (* [console.error(text)] *)
| stderr_value (error : exn)         (* [console.error(error)] *)
| stdout_text (text : string)        (* [console.log(text)] *)
| loader_line (line : ConsoleLine).  (* written by [loadRules] *)

(** How [run] ends: [process.exit(code)], or a plain return. *)
Inductive Termination : Type :=
| exited (code : nat)
| finished.

Record CliEnv (World : Type) : Type := {
  loaderEnv : LoaderEnv World;
  ruleOf : JsValue -> ValidationRule World;
  readInput : M World HookInput.t;
  cwd : Path;
  existsSyncIn : World -> Path -> bool;
  resolve : Path -> string -> string
}.
Arguments loaderEnv {World} _.
Arguments ruleOf {World} _ _.
Arguments readInput {World} _.
Arguments cwd {World} _.
Arguments existsSyncIn {World} _ _ _.
Arguments resolve {World} _ _ _.

Record CliState (World : Type) : Type := {
  cliWorld : World;
  output : list OutputLine
}.
Arguments cliWorld {World} _.
Arguments output {World} _.

Section CliEffects.
Variable World : Type.

Definition print (line : OutputLine) : M (CliState World) unit :=
  fun s =>
    (Returned tt, {| cliWorld := cliWorld s; output := output s ++ [line] |}).

Definition liftToCli {A} (m : M World A) : M (CliState World) A :=
  fun s =>
    let (r, w') := m (cliWorld s) in
    (r, {| cliWorld := w'; output := output s |}).

(** A call of the loader: what it writes to the console goes to the
    command's output. *)
Definition liftLoader {A} (m : M (LoaderState World) A) : M (CliState World) A :=
  fun s =>
    let (r, ls) := m {| world := cliWorld s; console := [] |} in
    (r, {| cliWorld := world ls;
           output := output s ++ map loader_line (console ls) |}).

(** [findProjectRoot()], from [process.cwd()]. *)
Definition projectRoot (env : CliEnv World) : M (CliState World) (option Path) :=
  fun s =>
    (Returned (findProjectRoot (existsSyncIn env (cliWorld s)) (cwd env)), s).

(** The engine after [for (const rule of rules) validator.registerRule(rule)]. *)
Definition engineOf (env : CliEnv World) (rules : list JsValue)
  : Validator.t World :=
  registerAll Validator.createValidator (map (ruleOf env) rules).

(** The reading of the request, inside its [try]: [None] when the [catch]
    block ran. *)
Definition readRequest (env : CliEnv World)
  : M (CliState World) (option HookInput.t) :=
  try_catch
    (input <- liftToCli (readInput env) ;; ret (Some input))
    (fun error =>
       print (stderr_text "❌ Failed to parse stdin input") ;;;
       print (stderr_value error) ;;;
       ret None).
End CliEffects.

Arguments print {World} line.
Arguments liftToCli {World A} m.
Arguments liftLoader {World A} m.
Arguments projectRoot {World} env.
Arguments engineOf {World} env rules.
Arguments readRequest {World} env.

Module validateCommand.
Record args : Type := {
  stdin : bool;
  rulesDir : string
}.

Section Run.
Variable World : Type.

Definition run (env : CliEnv World) (a : args) : M (CliState World) Termination :=
  found <- projectRoot env ;;
  match found with
  | None =>
      print (stderr_text
        "❌ Could not find .claude directory in current or parent directories") ;;;
      print (stderr_text
        "   Make sure you have a .claude/ directory in your project root") ;;;
      ret (exited 1)
  | Some root =>
      let rulesPath := resolve env root (rulesDir a) in
      rules <- liftLoader (loadRules (loaderEnv env) rulesPath) ;;
      if Nat.eqb (length rules) 0 then
        print (stderr_text ("❌ No validation rules found in " +:+ rulesPath)) ;;;
        print (stderr_text ("   Create rule files in " +:+ rulesDir a +:+ "/")) ;;;
        ret (exited 1)
      else
        let validator := engineOf env rules in
        if stdin a then
          parsed <- readRequest env ;;
          match parsed with
          | None => ret (exited 1)
          | Some input =>
              result <- liftToCli (Validator.validate validator input) ;;
              if negb (valid result) then
                print (stderr_text (formatErrors result)) ;;;
                ret (exited 2)
              else ret (exited 0)
          end
        else
          print (stderr_text "❌ --stdin is required") ;;;
          ret (exited 1)
  end.
End Run.

Arguments run {World} env a.
End validateCommand.

(** [`${rule.name}`] and [`${rule.description}`] for a collected object:
    the structural check has made both properties strings. *)
Definition stringProp (obj : JsValue) (key : string) : string :=
  match getProp obj key with
  | JsString text => text
  | _ => ""
  end.

Module listRulesCommand.
Record args : Type := {
  rulesDir : string
}.

Section Run.
Variable World : Type.

(** The body of [for (const rule of rules)]. *)
Fixpoint printRules (rules : list JsValue) : M (CliState World) unit :=
  match rules with
  | [] => ret tt
  | rule :: rules' =>
      print (stdout_text ("  • " +:+ stringProp rule "name")) ;;;
      print (stdout_text ("    " +:+ stringProp rule "description" +:+ nl)) ;;;
      printRules rules'
  end.

Definition run (env : CliEnv World) (a : args) : M (CliState World) Termination :=
  found <- projectRoot env ;;
  match found with
  | None =>
      print (stderr_text
        (nl +:+ "❌ Could not find .claude directory in current or parent directories"
            +:+ nl)) ;;;
      print (stderr_text
        ("   Make sure you have a .claude/ directory in your project root"
           +:+ nl)) ;;;
      ret (exited 1)
  | Some root =>
      let rulesPath := resolve env root (rulesDir a) in
      rules <- liftLoader (loadRules (loaderEnv env) rulesPath) ;;
      if Nat.eqb (length rules) 0 then
        print (stdout_text
          (nl +:+ "❌ No validation rules found in " +:+ rulesPath +:+ nl)) ;;;
        print (stdout_text
          ("Create rule files in " +:+ rulesDir a +:+ "/" +:+ nl)) ;;;
        ret finished
      else
        print (stdout_text
          (nl +:+ "📋 Discovered " +:+ pretty (length rules)
              +:+ " Validation Rules from " +:+ rulesDir a +:+ ":" +:+ nl)) ;;;
        printRules rules ;;;
        ret finished
  end.
End Run.

Arguments printRules {World} rules.
Arguments run {World} env a.
End listRulesCommand.

(** Surroundings for the command line over a fixed directory: the project
    root is [/proj], the rules are in [/proj/.claude/rules], and the
    request is the world itself, [None] standing for unreadable input. *)
Definition projEnv (files : list string)
    (modules : string -> outcome (list JsValue))
    (ruleOfObject : JsValue -> ValidationRule (option HookInput.t))
  : CliEnv (option HookInput.t) :=
  {| loaderEnv :=
       {| globMatches := fun pattern =>
            ret (if String.eqb pattern (rulePattern "/proj/.claude/rules")
                 then files else []);
          importValues := fun file w => (modules file, w);
          workingDirectory := ["proj"; "src"] |};
     ruleOf := ruleOfObject;
     readInput := fun w =>
       match w with
       | Some input => (Returned input, w)
       | None => (Thrown "SyntaxError: JSON Parse error", w)
       end;
     cwd := ["proj"; "src"];
     existsSyncIn := fun _ p => bool_decide (p = ["proj"; ".claude"]);
     resolve := fun root dir => "/" +:+ join "/" root +:+ "/" +:+ dir |}.

(** The rule a collected object stands for, in the examples: every
    object is a rule that flags [console.log]. *)
Definition consoleLogRuleOf (obj : JsValue)
  : ValidationRule (option HookInput.t) :=
  {| name := stringProp obj "name";
     description := stringProp obj "description";
     shouldRun := fun _ => ret true;
     validate := fun context =>
       ret (if includes (content context) "console.log"
            then ["console.log is not allowed"] else []) |}.

(** A project with one rule file. *)
Definition projModules (file : string) : outcome (list JsValue) :=
  if String.eqb file "/proj/.claude/rules/rule-a.ts"
  then Returned [ruleObject "rule-a"]
  else Thrown "SyntaxError".

Definition demoEnv : CliEnv (option HookInput.t) :=
  projEnv ["/proj/.claude/rules/rule-a.ts"] projModules consoleLogRuleOf.

(** The same project with a rule that throws. *)
Definition brokenRuleEnv : CliEnv (option HookInput.t) :=
  projEnv ["/proj/.claude/rules/rule-a.ts"] projModules
    (fun obj => failingRule (stringProp obj "name") "rule failed").

(** The same project with nothing under its rules directory. *)
Definition emptyEnv : CliEnv (option HookInput.t) :=
  projEnv [] projModules consoleLogRuleOf.

Definition demoArgs : validateCommand.args :=
  {| validateCommand.stdin := true; validateCommand.rulesDir := ".claude/rules" |}.

Definition listArgs : listRulesCommand.args :=
  {| listRulesCommand.rulesDir := ".claude/rules" |}.

(** The command's state at start: the request waiting on the standard
    input, nothing written yet. *)
Definition atStart (request : option HookInput.t) : CliState (option HookInput.t) :=
  {| cliWorld := request; output := [] |}.

(** * Properties *)

(** ** Strings *)

Lemma str_app_assoc (a b c : string) : (a +:+ b) +:+ c = a +:+ b +:+ c.
Proof.
  induction a as [|x a IH]; [reflexivity|].
  change (String x ((a +:+ b) +:+ c) = String x (a +:+ b +:+ c)).
  now rewrite IH.
Qed.

Lemma str_app_empty_r (a : string) : a +:+ "" = a.
Proof.
  induction a as [|x a IH]; [reflexivity|].
  change (String x (a +:+ "") = String x a). now rewrite IH.
Qed.

Lemma js_or_default_empty (a : option string) :
  js_or_default a "" = default "" a.
Proof.
  destruct a as [s|]; simpl; [|reflexivity].
  destruct (String.eqb_spec s ""); congruence.
Qed.

(** ** The context builder *)

Section ContextBuilder.
Implicit Types (input : HookInput.t).

(** C6, as the code has it: the built [content] is the payload's [content]
    field when that field is present and not the empty string; otherwise
    it is the [new_string] field when present; otherwise the empty
    string. *)
Theorem parseInput_content input :
  content (parseInput input) =
    match HookInput.content (HookInput.tool_input input) with
    | Some (String a s) => String a s
    | Some EmptyString | None =>
        match HookInput.new_string (HookInput.tool_input input) with
        | Some replacement => replacement
        | None => ""
        end
    end.
Proof.
  destruct input as [tn [fp [[|a s]|] n o]]; cbn;
    try reflexivity; apply js_or_default_empty.
Qed.

(** C6 fails as stated: a payload whose [content] field is present and
    empty yields the [new_string] text, not the field's own value. *)
Lemma parseInput_content_present_not_taken :
  let input :=
    {| HookInput.tool_name := "Write";
       HookInput.tool_input :=
         {| HookInput.file_path := Some "x.ts";
            HookInput.content := Some "";
            HookInput.new_string := Some "replacement";
            HookInput.old_string := None |} |} in
  HookInput.content (HookInput.tool_input input) = Some ""
  /\ content (parseInput input) = "replacement".
Proof. split; reflexivity. Qed.

(** C7, as the code has it: every built context carries an [oldContent]
    value, whatever the operation: the payload's [old_string] field when
    present, the empty string otherwise. *)
Theorem parseInput_oldContent input :
  oldContent (parseInput input) =
    Some (default "" (HookInput.old_string (HookInput.tool_input input))).
Proof. cbn. now rewrite js_or_default_empty. Qed.

(** C7 fails as stated: the context built for a write carries an
    [oldContent] value, the empty string (or the payload's [old_string]
    when the write request has one). *)
Lemma parseInput_write_has_oldContent :
  let input :=
    {| HookInput.tool_name := "Write";
       HookInput.tool_input :=
         {| HookInput.file_path := Some "x.ts";
            HookInput.content := Some "ok";
            HookInput.new_string := None;
            HookInput.old_string := None |} |} in
  operation (parseInput input) = write
  /\ oldContent (parseInput input) = Some "".
Proof. split; reflexivity. Qed.
End ContextBuilder.

(** ** The renderer *)

Section Renderer.

Lemma join_cons (sep e : string) (l : list string) :
  join sep (e :: l) = e +:+ eachAfter sep l.
Proof.
  revert e. induction l as [|x l IH]; intros e.
  - simpl. now rewrite str_app_empty_r.
  - change (join sep (e :: x :: l)) with (e +:+ sep +:+ join sep (x :: l)).
    now rewrite IH.
Qed.

Lemma join_cons_ne (sep x : string) (l : list string) :
  l <> [] -> join sep (x :: l) = x +:+ sep +:+ join sep l.
Proof. destruct l; [congruence | reflexivity]. Qed.

Lemma join_split (sep e : string) (l1 l2 : list string) :
  join sep (l1 ++ e :: l2) = eachThen sep l1 +:+ e +:+ eachAfter sep l2.
Proof.
  induction l1 as [|x l1 IH].
  - apply join_cons.
  - rewrite <- app_comm_cons, join_cons_ne by (now destruct l1).
    rewrite IH. cbn [eachThen]. now rewrite !str_app_assoc.
Qed.

(** C8: [formatErrors()] is the empty string when [errors] is empty;
    otherwise it is the header followed by the diagnostics joined by a
    blank line, so that each diagnostic stands after the header and the
    earlier diagnostics, every one of them closed by a blank line, and
    before the later diagnostics, every one of them opened by a blank
    line. *)
Theorem formatErrors_render (r : ValidationResult) :
  (errors r = [] -> formatErrors r = "")
  /\ (errors r <> [] ->
      formatErrors r = errorsHeader +:+ join (nl +:+ nl) (errors r))
  /\ (forall before e after, errors r = before ++ e :: after ->
      formatErrors r =
        errorsHeader +:+ eachThen (nl +:+ nl) before +:+ e
          +:+ eachAfter (nl +:+ nl) after).
Proof.
  unfold formatErrors. repeat split.
  - intros ->. reflexivity.
  - intros Hne. destruct (errors r); [congruence | reflexivity].
  - intros l1 e l2 ->. rewrite length_app. simpl length.
    replace (Nat.eqb (length l1 + S (length l2)) 0) with false
      by (symmetry; apply Nat.eqb_neq; lia).
    now rewrite join_split.
Qed.
End Renderer.

Example formatErrors_two :
  formatErrors {| valid := false; errors := ["first"; "second"] |}
  = nl +:+ "⚠️  VALIDATION ERRORS:" +:+ nl +:+ nl
      +:+ "first" +:+ nl +:+ nl +:+ "second".
Proof. reflexivity. Qed.

(** ** The project root *)

Section ProjectRootProperties.
Variable existsSync : Path -> bool.

Lemma findProjectRoot_root : findProjectRoot existsSync [] = None.
Proof. now simp findProjectRoot. Qed.

Lemma findProjectRoot_snoc (dir : Path) (seg : string) :
  findProjectRoot existsSync (dir ++ [seg]) =
    if existsSync (joinPath (dir ++ [seg]) ".claude")
    then Some (dir ++ [seg])
    else findProjectRoot existsSync dir.
Proof.
  destruct (dir ++ [seg]) as [|s rest] eqn:E.
  - now destruct dir.
  - simp findProjectRoot. unfold dirname.
    now rewrite <- E, removelast_last.
Qed.

Lemma prefix_snoc_cases (d dir : Path) (seg : string) :
  d `prefix_of` dir ++ [seg] -> d = dir ++ [seg] \/ d `prefix_of` dir.
Proof.
  intros [k Hk]. destruct k as [|y k _] using rev_ind.
  - left. now rewrite app_nil_r in Hk.
  - right. rewrite app_assoc in Hk.
    apply app_inj_tail in Hk as [-> _]. now exists k.
Qed.

Lemma findProjectRoot_some (start dir : Path) :
  findProjectRoot existsSync start = Some dir ->
  dir `prefix_of` start /\ dir <> root
  /\ existsSync (joinPath dir ".claude") = true
  /\ (forall d, d `prefix_of` start -> length dir < length d ->
      existsSync (joinPath d ".claude") = false).
Proof.
  induction start as [|seg start IH] using rev_ind.
  - now rewrite findProjectRoot_root.
  - rewrite findProjectRoot_snoc.
    destruct (existsSync (joinPath (start ++ [seg]) ".claude")) eqn:E.
    + intros [= <-]. repeat split; auto.
      * now destruct start.
      * intros d Hd Hlen. apply prefix_length in Hd. lia.
    + intros H. destruct (IH H) as (Hp & Hr & Hc & Hn).
      repeat split; auto.
      * now apply prefix_app_r.
      * intros d Hd Hlen.
        destruct (prefix_snoc_cases _ _ _ Hd) as [-> | Hd']; auto.
Qed.

Lemma findProjectRoot_none (start : Path) :
  findProjectRoot existsSync start = None ->
  forall d, d `prefix_of` start -> d <> root ->
    existsSync (joinPath d ".claude") = false.
Proof.
  induction start as [|seg start IH] using rev_ind.
  - intros _ d Hd Hr. apply prefix_nil_inv in Hd. contradiction.
  - rewrite findProjectRoot_snoc.
    destruct (existsSync (joinPath (start ++ [seg]) ".claude")) eqn:E;
      [discriminate|].
    intros H d Hd Hr.
    destruct (prefix_snoc_cases _ _ _ Hd) as [-> | Hd']; auto.
Qed.
End ProjectRootProperties.

Lemma findProjectRoot_ext (ex1 ex2 : Path -> bool) (start : Path) :
  (forall d, d <> root -> ex1 (joinPath d ".claude") = ex2 (joinPath d ".claude")) ->
  findProjectRoot ex1 start = findProjectRoot ex2 start.
Proof.
  intros Hext. induction start as [|seg start IH] using rev_ind.
  - now rewrite !findProjectRoot_root.
  - rewrite !findProjectRoot_snoc, IH, Hext; [reflexivity|].
    now destruct start.
Qed.

(** C10: [findProjectRoot] returns [null] or the nearest directory among
    the start directory and its ancestors, the root excluded, that holds a
    [.claude] entry; the root is never examined: the answer does not
    depend on what ['/'] holds, and is [null] when no directory other
    than ['/'] holds [.claude]. *)
Theorem findProjectRoot_nearest (existsSync : Path -> bool) (start : Path) :
  match findProjectRoot existsSync start with
  | Some dir =>
      dir `prefix_of` start /\ dir <> root
      /\ existsSync (joinPath dir ".claude") = true
      /\ (forall d, d `prefix_of` start -> length dir < length d ->
          existsSync (joinPath d ".claude") = false)
  | None =>
      forall d, d `prefix_of` start -> d <> root ->
        existsSync (joinPath d ".claude") = false
  end
  /\ (forall existsSync', (forall d, d <> root ->
        existsSync' (joinPath d ".claude") = existsSync (joinPath d ".claude")) ->
      findProjectRoot existsSync' start = findProjectRoot existsSync start)
  /\ ((forall d, existsSync (joinPath d ".claude") = true -> d = root) ->
      findProjectRoot existsSync start = None).
Proof.
  split; [|split].
  - destruct (findProjectRoot existsSync start) as [dir|] eqn:E.
    + now apply findProjectRoot_some.
    + now apply findProjectRoot_none.
  - intros ex' H. now apply findProjectRoot_ext.
  - intros Honly.
    destruct (findProjectRoot existsSync start) as [dir|] eqn:E; [|reflexivity].
    apply findProjectRoot_some in E as (_ & Hr & Hc & _).
    now apply Honly in Hc.
Qed.

(** The only [.claude] is the one of the root: the search from [/a/b]
    finds nothing. *)
Example findProjectRoot_only_root :
  findProjectRoot (fun p => bool_decide (p = [".claude"])) ["a"; "b"] = None.
Proof. reflexivity. Qed.

Example findProjectRoot_found :
  findProjectRoot (fun p => bool_decide (p = ["a"; ".claude"])) ["a"; "b"; "c"]
  = Some ["a"].
Proof. reflexivity. Qed.

(** ** The effect monad *)

Section MonadFacts.
Context {World : Type}.

Lemma bind_returned {A B} (m : M World A) (k : A -> M World B) w a w1 :
  m w = (Returned a, w1) -> bind m k w = k a w1.
Proof. unfold bind. now intros ->. Qed.

Lemma bind_thrown {A B} (m : M World A) (k : A -> M World B) w e w1 :
  m w = (Thrown e, w1) -> bind m k w = (Thrown e, w1).
Proof. unfold bind. now intros ->. Qed.

Lemma bind_inv_returned {A B} (m : M World A) (k : A -> M World B) w b w2 :
  bind m k w = (Returned b, w2) ->
  exists a w1, m w = (Returned a, w1) /\ k a w1 = (Returned b, w2).
Proof.
  unfold bind. destruct (m w) as [[a|e] w1]; [eauto | discriminate].
Qed.

Lemma bind_ret_r {A} (m : M World A) w : bind m ret w = m w.
Proof. unfold bind, ret. now destruct (m w) as [[a|e] w1]. Qed.

Lemma bind_assoc {A B C} (m : M World A) (f : A -> M World B)
    (g : B -> M World C) w :
  bind (bind m f) g w = bind m (fun a => bind (f a) g) w.
Proof. unfold bind. now destruct (m w) as [[a|e] w1]. Qed.

Lemma bind_ext {A B} (m : M World A) (k1 k2 : A -> M World B) w :
  (forall a w1, k1 a w1 = k2 a w1) -> bind m k1 w = bind m k2 w.
Proof. intros H. unfold bind. now destruct (m w) as [[a|e] w1]. Qed.

Lemma bind_ext_l {A B} (m1 m2 : M World A) (k : A -> M World B) w :
  (forall w0, m1 w0 = m2 w0) -> bind m1 k w = bind m2 k w.
Proof. intros H. unfold bind. now rewrite H. Qed.

Lemma raises_bind_l {A B} (m : M World A) (k : A -> M World B) :
  raises m -> raises (bind m k).
Proof.
  intros Hm w. destruct (Hm w) as (e & w1 & E).
  exists e, w1. now apply bind_thrown.
Qed.

Lemma raises_bind_r {A B} (m : M World A) (k : A -> M World B) :
  (forall a, raises (k a)) -> raises (bind m k).
Proof.
  intros Hk w. unfold bind. destruct (m w) as [[a|e] w1]; [apply Hk | eauto].
Qed.

Lemma returns_bind {A B} (m : M World A) (k : A -> M World B) a b :
  returns m a -> returns (k a) b -> returns (bind m k) b.
Proof.
  intros Hm Hk w. destruct (Hm w) as (w1 & E1). destruct (Hk w1) as (w2 & E2).
  exists w2. now rewrite (bind_returned _ _ _ _ _ E1).
Qed.

Lemma completes_bind {A B} (m : M World A) (k : A -> M World B) :
  completes m -> (forall a, completes (k a)) -> completes (bind m k).
Proof.
  intros Hm Hk w. destruct (Hm w) as (a & w1 & E1).
  destruct (Hk a w1) as (b & w2 & E2).
  exists b, w2. now rewrite (bind_returned _ _ _ _ _ E1).
Qed.

End MonadFacts.

(** ** Calls with and without the shared array *)

Section LiveFacts.
Context {World : Type}.

Lemma onWorld_returned {A} (m : M World A) (s : Live World) a w' :
  m (liveWorld s) = (Returned a, w') ->
  onWorld m s = (Returned a, {| liveWorld := w'; liveErrors := liveErrors s |}).
Proof. intros E. unfold onWorld. now rewrite E. Qed.

Lemma raises_onWorld {A} (m : M World A) : raises m -> raises (onWorld m).
Proof.
  intros Hm s. destruct (Hm (liveWorld s)) as (e & w' & E).
  exists e, {| liveWorld := w'; liveErrors := liveErrors s |}.
  unfold onWorld. now rewrite E.
Qed.

Lemma returns_onWorld {A} (m : M World A) a : returns m a -> returns (onWorld m) a.
Proof.
  intros Hm s. destruct (Hm (liveWorld s)) as (w' & E).
  exists {| liveWorld := w'; liveErrors := liveErrors s |}.
  now apply onWorld_returned.
Qed.

(** A call that is handed no array leaves the array alone. *)
Lemma onWorld_keeps {A} (m : M World A) (s : Live World) r s' :
  onWorld m s = (r, s') -> liveErrors s' = liveErrors s.
Proof.
  unfold onWorld. destruct (m (liveWorld s)) as [r0 w']. now intros [= _ <-].
Qed.

Lemma detached_returned {A} (m : M (Live World) A) w a s :
  m {| liveWorld := w; liveErrors := [] |} = (Returned a, s) ->
  detached m w = (Returned a, liveWorld s).
Proof. intros E. unfold detached. now rewrite E. Qed.

Lemma detached_inv_returned {A} (m : M (Live World) A) w a w' :
  detached m w = (Returned a, w') ->
  exists s, m {| liveWorld := w; liveErrors := [] |} = (Returned a, s)
            /\ liveWorld s = w'.
Proof.
  unfold detached.
  destruct (m {| liveWorld := w; liveErrors := [] |}) as [r s].
  intros [= -> <-]. now exists s.
Qed.

Lemma raises_detached {A} (m : M (Live World) A) : raises m -> raises (detached m).
Proof.
  intros Hm w.
  destruct (Hm {| liveWorld := w; liveErrors := [] |}) as (e & s & E).
  exists e, (liveWorld s). unfold detached. now rewrite E.
Qed.

Lemma detached_onWorld {A} (m : M World A) w : detached (onWorld m) w = m w.
Proof. unfold detached, onWorld. cbn. now destruct (m w). Qed.

Lemma sharing_inv_returned {A} (m : M (Live World) A) errs w x w' :
  sharing errs m w = (Returned x, w') ->
  exists s, m {| liveWorld := w; liveErrors := errs |} = (Returned (fst x), s)
            /\ liveErrors s = snd x /\ liveWorld s = w'.
Proof.
  unfold sharing.
  destruct (m {| liveWorld := w; liveErrors := errs |}) as [[a|e] s];
    intros [= <- <-]; now exists s.
Qed.

Lemma sharing_returned {A} (m : M (Live World) A) errs w a s :
  m {| liveWorld := w; liveErrors := errs |} = (Returned a, s) ->
  sharing errs m w = (Returned (a, liveErrors s), liveWorld s).
Proof. intros E. unfold sharing. now rewrite E. Qed.

Lemma raises_sharing {A} (m : M (Live World) A) errs :
  raises m -> raises (sharing errs m).
Proof.
  intros Hm w.
  destruct (Hm {| liveWorld := w; liveErrors := errs |}) as (e & s & E).
  exists e, (liveWorld s). unfold sharing. now rewrite E.
Qed.
End LiveFacts.

(** ** The hook bus *)

Section HookableFacts.
Context {World : Type}.
Implicit Types (hs : list (Handler World)) (fn : Handler World).

Lemma handlersOf_hook (hooks : gmap string (list (Handler World)))
    (hookName other : string) fn :
  handlersOf (hook hooks hookName fn) other =
    if decide (hookName = other)
    then handlersOf hooks hookName ++ [fn]
    else handlersOf hooks other.
Proof.
  unfold handlersOf at 1. unfold hook. rewrite lookup_insert.
  now destruct (decide (hookName = other)).
Qed.

Lemma handlersOf_createHooks (hookName : string) :
  handlersOf (@createHooks World) hookName = [].
Proof. unfold handlersOf, createHooks. now rewrite lookup_empty. Qed.

Lemma serialTaskCaller_app hs1 hs2 args last w :
  serialTaskCaller (hs1 ++ hs2) args last w =
    bind (serialTaskCaller hs1 args last)
         (fun r => serialTaskCaller hs2 args r) w.
Proof.
  revert last w. induction hs1 as [|fn hs1 IH]; intros last w.
  - reflexivity.
  - cbn [serialTaskCaller app]. rewrite bind_assoc.
    apply bind_ext. intros r w1. apply IH.
Qed.

(** The chain resolves to what its last handler returned. *)
Lemma serialTaskCaller_snoc hs fn args last w :
  serialTaskCaller (hs ++ [fn]) args last w =
    bind (serialTaskCaller hs args last) (fun _ => fn args) w.
Proof.
  rewrite serialTaskCaller_app. apply bind_ext. intros r w1.
  cbn [serialTaskCaller]. apply bind_ret_r.
Qed.

Lemma serialTaskCaller_nil_completes args last :
  completes (@serialTaskCaller World [] args last).
Proof. intros w. now exists last, w. Qed.

(** A handler that throws makes the chain throw: the handlers before it
    either threw already or returned and let it run. *)
Lemma serialTaskCaller_raises hs fn args last :
  fn ∈ hs -> raises (fn args) -> raises (serialTaskCaller hs args last).
Proof.
  intros Hin Hfn. revert last.
  induction hs as [|fn' hs IH]; intros last.
  - now apply elem_of_nil in Hin.
  - cbn [serialTaskCaller]. apply elem_of_cons in Hin as [<- | Hin].
    + now apply raises_bind_l.
    + apply raises_bind_r. intros r. now apply IH.
Qed.
End HookableFacts.

(** ** The validation engine *)

Section EngineFacts.
Context {World : Type}.
Implicit Types (v : Validator.t World) (rule : ValidationRule World).
Implicit Types (hs : gmap string (list (Handler World))).
Implicit Types (context : ValidationContext) (errs : list string).

(** Every registered rule has its handler on its own channel. *)
Lemma built_registered v :
  built v ->
  forall rule, rule ∈ Validator.rules v ->
    Validator.ruleHandler rule
      ∈ handlersOf (Validator.hooks v) (Validator.channel (name rule)).
Proof.
  induction 1 as [|v r Hb IH|v hookName fn Hb IH]; intros rule Hin; cbn in *.
  - now apply elem_of_nil in Hin.
  - rewrite handlersOf_hook. apply elem_of_app in Hin as [Hin | Hin].
    + destruct (decide _) as [E|_]; [|now apply IH].
      rewrite E. apply elem_of_app. left. now apply IH.
    + apply list_elem_of_singleton in Hin as ->.
      rewrite decide_True by reflexivity. apply elem_of_app. right.
      now apply list_elem_of_singleton.
  - rewrite handlersOf_hook.
    destruct (decide _) as [E|_]; [|now apply IH].
    rewrite E. apply elem_of_app. left. now apply IH.
Qed.

Lemma runRules_app hs context (rs1 rs2 : list (ValidationRule World)) errs w :
  Validator.runRules hs context (rs1 ++ rs2) errs w =
    bind (Validator.runRules hs context rs1 errs)
         (Validator.runRules hs context rs2) w.
Proof.
  revert errs w. induction rs1 as [|rule rs1 IH]; intros errs w.
  - reflexivity.
  - cbn [Validator.runRules app]. rewrite bind_assoc.
    apply bind_ext. intros errs' w1. apply IH.
Qed.

(** A rule whose [shouldRun] returns false is skipped: the aggregate is
    left as it was and nothing runs after [shouldRun]. *)
Lemma runRule_skips hs context errs rule w w1 :
  shouldRun rule context w = (Returned false, w1) ->
  Validator.runRule hs context errs rule w = (Returned errs, w1).
Proof.
  intros E. unfold Validator.runRule. now rewrite (bind_returned _ _ _ _ _ E).
Qed.

Lemma runRules_all_skip hs context (rs : list (ValidationRule World)) errs :
  Forall (fun rule => returns (shouldRun rule context) false) rs ->
  returns (Validator.runRules hs context rs errs) errs.
Proof.
  induction 1 as [|rule rs Hrule _ IH]; intros w.
  - now exists w.
  - destruct (Hrule w) as (w1 & E1). destruct (IH w1) as (w2 & E2).
    exists w2. cbn [Validator.runRules].
    now rewrite (bind_returned _ _ _ _ _ (runRule_skips hs _ errs _ _ _ E1)).
Qed.

(** A turn of the loop only ever appends to the aggregate. *)
Lemma runRule_extends hs context errs rule w errs' w' :
  Validator.runRule hs context errs rule w = (Returned errs', w') ->
  exists d, errs' = errs ++ d.
Proof.
  unfold Validator.runRule. intros H.
  apply bind_inv_returned in H as ([|] & w1 & _ & H).
  - apply bind_inv_returned in H as (result & w2 & _ & H).
    destruct result as [l|].
    + destruct (Nat.ltb 0 (length l)); injection H as <- _;
        [now exists l | exists []; now rewrite app_nil_r].
    + injection H as <- _. exists []. now rewrite app_nil_r.
  - injection H as <- _. exists []. now rewrite app_nil_r.
Qed.

Lemma runRules_extends hs context (rs : list (ValidationRule World)) errs w errs' w' :
  Validator.runRules hs context rs errs w = (Returned errs', w') ->
  exists d, errs' = errs ++ d.
Proof.
  revert errs w. induction rs as [|rule rs IH]; intros errs w H.
  - injection H as <- _. exists []. now rewrite app_nil_r.
  - cbn [Validator.runRules] in H.
    apply bind_inv_returned in H as (errs1 & w1 & H1 & H2).
    apply runRule_extends in H1 as [d1 ->]. apply IH in H2 as [d2 ->].
    exists (d1 ++ d2). now rewrite app_assoc.
Qed.

(** The channel of a rule that is alone on it resolves to what the
    rule's [validate] returns. *)
Lemma callHook_alone hs rule (args : HookArgs) w :
  handlersOf hs (Validator.channel (name rule)) = [Validator.ruleHandler rule] ->
  detached (callHook hs (Validator.channel (name rule)) args) w
  = (l <- validate rule (arg_context args) ;; ret (Some l)) w.
Proof.
  intros Hch. unfold callHook. rewrite Hch. cbn [serialTaskCaller].
  unfold detached. rewrite bind_ret_r. unfold Validator.ruleHandler.
  apply detached_onWorld.
Qed.

(** An applicable rule that is alone on its channel contributes exactly
    what its [validate] returned. *)
Lemma runRule_contributes hs context errs rule d w errs' w' :
  handlersOf hs (Validator.channel (name rule)) = [Validator.ruleHandler rule] ->
  returns (shouldRun rule context) true ->
  returns (validate rule context) d ->
  Validator.runRule hs context errs rule w = (Returned errs', w') ->
  errs' = errs ++ d.
Proof.
  intros Hch Hs Hv. unfold Validator.runRule.
  destruct (Hs w) as (w1 & E1). rewrite (bind_returned _ _ _ _ _ E1).
  rewrite (bind_ext_l _ _ _ _ (fun w0 => callHook_alone hs rule _ w0 Hch)).
  cbn [arg_context].
  destruct (Hv w1) as (w2 & E2). rewrite !bind_assoc.
  rewrite (bind_returned _ _ _ _ _ E2). cbn.
  destruct d as [|x d]; cbn; intros [= <- _]; [now rewrite app_nil_r | reflexivity].
Qed.

(** A registered rule that throws makes the loop throw. *)
Lemma runRule_raises hs context errs rule :
  Validator.ruleHandler rule ∈ handlersOf hs (Validator.channel (name rule)) ->
  raises (shouldRun rule context)
  \/ (returns (shouldRun rule context) true /\ raises (validate rule context)) ->
  raises (Validator.runRule hs context errs rule).
Proof.
  intros Hin [Hs | [Hs Hv]]; unfold Validator.runRule.
  - now apply raises_bind_l.
  - intros w. destruct (Hs w) as (w1 & E1).
    rewrite (bind_returned _ _ _ _ _ E1).
    apply raises_bind_l, raises_detached. unfold callHook.
    apply serialTaskCaller_raises with (fn := Validator.ruleHandler rule); [assumption|].
    unfold Validator.ruleHandler. now apply raises_onWorld, raises_bind_l.
Qed.

Lemma runRules_raises hs context (rs : list (ValidationRule World)) errs rule :
  rule ∈ rs ->
  Validator.ruleHandler rule ∈ handlersOf hs (Validator.channel (name rule)) ->
  raises (shouldRun rule context)
  \/ (returns (shouldRun rule context) true /\ raises (validate rule context)) ->
  raises (Validator.runRules hs context rs errs).
Proof.
  intros Hin Hh Hr. revert errs.
  induction rs as [|rule' rs IH]; intros errs.
  - now apply elem_of_nil in Hin.
  - cbn [Validator.runRules]. apply elem_of_cons in Hin as [<- | Hin].
    + apply raises_bind_l. now apply runRule_raises.
    + apply raises_bind_r. intros errs'. now apply IH.
Qed.

(** The loop does not look at the aggregate: started from any aggregate it
    appends what it appends when started from the empty one. *)
Lemma runRule_acc hs context errs rule w :
  Validator.runRule hs context errs rule w
  = match Validator.runRule hs context [] rule w with
    | (Returned d, w') => (Returned (errs ++ d), w')
    | (Thrown e, w') => (Thrown e, w')
    end.
Proof.
  unfold Validator.runRule, bind.
  destruct (shouldRun rule context w) as [[[|]|e] w1]; cbn;
    [| now rewrite app_nil_r | reflexivity].
  destruct (detached _ w1) as [[[l|]|e] w2]; cbn;
    [| now rewrite app_nil_r | reflexivity].
  destruct l as [|x l]; cbn; [now rewrite app_nil_r | reflexivity].
Qed.

Lemma runRules_acc hs context (rs : list (ValidationRule World)) errs w :
  Validator.runRules hs context rs errs w
  = match Validator.runRules hs context rs [] w with
    | (Returned d, w') => (Returned (errs ++ d), w')
    | (Thrown e, w') => (Thrown e, w')
    end.
Proof.
  revert errs w. induction rs as [|rule rs IH]; intros errs w.
  - cbn. now rewrite app_nil_r.
  - cbn [Validator.runRules]. unfold bind.
    rewrite (runRule_acc hs context errs).
    destruct (Validator.runRule hs context [] rule w) as [[d1|e] w1];
      [|reflexivity].
    rewrite (IH (errs ++ d1)), (IH ([] ++ d1)).
    destruct (Validator.runRules hs context rs [] w1) as [[d2|e] w2];
      [|reflexivity].
    cbn. now rewrite app_assoc.
Qed.

Lemma runRules_from_empty hs context (rs : list (ValidationRule World))
    errs w errs' w' :
  Validator.runRules hs context rs errs w = (Returned errs', w') ->
  exists d, errs' = errs ++ d
            /\ Validator.runRules hs context rs [] w = (Returned d, w').
Proof.
  rewrite runRules_acc.
  destruct (Validator.runRules hs context rs [] w) as [[d|e] u];
    [|discriminate].
  intros [= <- <-]. now exists d.
Qed.

Lemma runRule_from_empty hs context errs rule w errs' w' :
  Validator.runRule hs context errs rule w = (Returned errs', w') ->
  exists d, errs' = errs ++ d
            /\ Validator.runRule hs context [] rule w = (Returned d, w').
Proof.
  rewrite runRule_acc.
  destruct (Validator.runRule hs context [] rule w) as [[d|e] u];
    [|discriminate].
  intros [= <- <-]. now exists d.
Qed.

(** A call of [validate] that returns, step by step: the handlers of
    [validate:before], the loop, the handlers of [validate:after] on the
    array the loop filled, and the result read from that array as they
    left it. *)
Lemma validate_inv v input w res w' :
  Validator.validate v input w = (Returned res, w') ->
  exists r0 w1 pushed w2 r s,
    detached (callHook (Validator.hooks v) "validate:before"
                (contextArgs (parseInput input))) w = (Returned r0, w1)
    /\ Validator.runRules (Validator.hooks v) (parseInput input)
         (Validator.rules v) [] w1 = (Returned pushed, w2)
    /\ callHook (Validator.hooks v) "validate:after"
         (afterArgs (parseInput input))
         {| liveWorld := w2; liveErrors := pushed |} = (Returned r, s)
    /\ w' = liveWorld s
    /\ res = {| valid := Nat.eqb (length (liveErrors s)) 0;
                errors := liveErrors s |}.
Proof.
  unfold Validator.validate. intros H.
  apply bind_inv_returned in H as (r0 & w1 & Hbefore & H).
  apply bind_inv_returned in H as (pushed & w2 & Hrun & H).
  apply bind_inv_returned in H as ([r after] & w3 & Hafter & H).
  apply sharing_inv_returned in Hafter as (s & Hafter & Herrs & Hw).
  cbn in *. injection H as <- <-. subst.
  now exists r0, w1, pushed, w2, r, s.
Qed.

(** The other way round, for a call whose three steps return. *)
Lemma validate_returned v input w r0 w1 pushed w2 r s :
  detached (callHook (Validator.hooks v) "validate:before"
              (contextArgs (parseInput input))) w = (Returned r0, w1) ->
  Validator.runRules (Validator.hooks v) (parseInput input)
    (Validator.rules v) [] w1 = (Returned pushed, w2) ->
  callHook (Validator.hooks v) "validate:after" (afterArgs (parseInput input))
    {| liveWorld := w2; liveErrors := pushed |} = (Returned r, s) ->
  Validator.validate v input w
  = (Returned {| valid := Nat.eqb (length (liveErrors s)) 0;
                 errors := liveErrors s |}, liveWorld s).
Proof.
  intros Hbefore Hrun Hafter. unfold Validator.validate.
  unfold contextArgs in Hbefore. unfold afterArgs in Hafter.
  rewrite (bind_returned _ _ _ _ _ Hbefore), (bind_returned _ _ _ _ _ Hrun).
  now rewrite (bind_returned _ _ _ _ _ (sharing_returned _ _ _ _ _ Hafter)).
Qed.

(** An event with no handler returns at once and changes nothing. *)
Lemma callHook_quiet hs (hookName : string) (args : HookArgs) (s : Live World) :
  handlersOf hs hookName = [] ->
  callHook hs hookName args s = (Returned None, s).
Proof. intros E. unfold callHook. now rewrite E. Qed.
End EngineFacts.

(** ** Engines made of registrations only *)

Section FreshEngines.
Context {World : Type}.
Implicit Types (v : Validator.t World) (rule : ValidationRule World).
Implicit Types (rs : list (ValidationRule World)).

Lemma channel_inj (a b : string) :
  Validator.channel a = Validator.channel b -> a = b.
Proof. unfold Validator.channel. apply (inj (String.app "validate:")). Qed.

Lemma registerAll_rules v rs :
  Validator.rules (registerAll v rs) = Validator.rules v ++ rs.
Proof.
  revert v. induction rs as [|rule rs IH]; intros v; cbn.
  - now rewrite app_nil_r.
  - unfold registerAll in IH. rewrite IH. cbn. now rewrite <- app_assoc.
Qed.

(** The handlers of a channel after a run of registrations: those that
    were there, then one for each registered rule of that name, in
    registration order. *)
Lemma registerAll_handlers v rs (hookName : string) :
  handlersOf (Validator.hooks (registerAll v rs)) hookName
  = handlersOf (Validator.hooks v) hookName
      ++ map Validator.ruleHandler
           (List.filter
              (fun rule => bool_decide (Validator.channel (name rule) = hookName))
              rs).
Proof.
  revert v. induction rs as [|rule rs IH]; intros v; cbn.
  - now rewrite app_nil_r.
  - unfold registerAll in IH. rewrite IH. cbn [Validator.hooks Validator.registerRule].
    rewrite handlersOf_hook.
    destruct (decide (Validator.channel (name rule) = hookName)) as [E|E].
    + rewrite bool_decide_true by assumption. cbn. rewrite E.
      now rewrite <- app_assoc.
    + now rewrite bool_decide_false by assumption.
Qed.

Lemma built_registerAll v rs : built v -> built (registerAll v rs).
Proof.
  revert v. induction rs as [|rule rs IH]; intros v Hb; cbn; [assumption|].
  apply IH. now constructor.
Qed.

Lemma filter_channel_absent rs (ruleName : string) :
  ruleName ∉ map name rs ->
  List.filter
    (fun rule => bool_decide
                   (Validator.channel (name rule) = Validator.channel ruleName))
    rs = [].
Proof.
  induction rs as [|r rs IH]; [reflexivity|].
  cbn [map List.filter]. intros Hn. apply not_elem_of_cons in Hn as [Hne Hn].
  rewrite bool_decide_false; [now apply IH|].
  intros H%channel_inj. congruence.
Qed.

(** With pairwise distinct names, each rule is alone on its channel. *)
Lemma registerAll_alone rs rule :
  NoDup (map name rs) -> In rule rs ->
  handlersOf (Validator.hooks (registerAll Validator.createValidator rs))
    (Validator.channel (name rule))
  = [Validator.ruleHandler rule].
Proof.
  intros Hnd Hin. rewrite registerAll_handlers.
  cbn [Validator.hooks Validator.createValidator].
  rewrite handlersOf_createHooks. cbn [app].
  induction rs as [|r rs IH]; [contradiction|].
  cbn [map] in Hnd. apply NoDup_cons in Hnd as [Hfresh Hnd].
  cbn [List.filter]. destruct Hin as [-> | Hin].
  - rewrite bool_decide_true by reflexivity.
    now rewrite filter_channel_absent.
  - rewrite bool_decide_false; [now apply IH|].
    intros H%channel_inj. apply Hfresh. rewrite H.
    apply list_elem_of_In, in_map, Hin.
Qed.

(** With no rule called [before] or [after], nothing listens on the two
    lifecycle channels. *)
Lemma registerAll_lifecycle_quiet rs (phase : string) :
  Forall (fun rule => name rule <> phase) rs ->
  handlersOf (Validator.hooks (registerAll Validator.createValidator rs))
    (Validator.channel phase) = [].
Proof.
  intros Hq. rewrite registerAll_handlers. cbn [Validator.hooks Validator.createValidator].
  rewrite handlersOf_createHooks. cbn [app].
  induction Hq as [|rule rs Hrule _ IH]; [reflexivity|].
  cbn [List.filter]. rewrite bool_decide_false; [assumption|].
  now intros H%channel_inj.
Qed.

(** On such an engine, a context to which no rule applies passes. *)
Lemma validate_fresh_no_applicable_rule rs (input : HookInput.t) :
  Forall (fun rule => name rule <> "before") rs ->
  Forall (fun rule => name rule <> "after") rs ->
  Forall (fun rule => returns (shouldRun rule (parseInput input)) false) rs ->
  returns (Validator.validate (registerAll Validator.createValidator rs) input)
    {| valid := true; errors := [] |}.
Proof.
  intros Hb Ha Hskip w.
  pose proof (registerAll_lifecycle_quiet rs "before" Hb) as Eb.
  pose proof (registerAll_lifecycle_quiet rs "after" Ha) as Ea.
  destruct (runRules_all_skip
              (Validator.hooks (registerAll Validator.createValidator rs))
              (parseInput input) rs [] Hskip w) as (w1 & E).
  exists w1.
  apply (validate_returned _ _ w None w [] w1 None
           {| liveWorld := w1; liveErrors := [] |}).
  - apply (detached_returned _ w None {| liveWorld := w; liveErrors := [] |}).
    now apply callHook_quiet.
  - now rewrite registerAll_rules.
  - now apply callHook_quiet.
Qed.
End FreshEngines.

Section EngineClaims.
Context {World : Type}.
Implicit Types (v : Validator.t World) (rule : ValidationRule World).

(** C1, as the code has it: a result that [validate] returns has
    [valid = true] exactly when its [errors] are empty; and when every
    registered rule's [shouldRun] returns false on the context, the
    handlers of [validate:before] complete without throwing, and the
    handlers of [validate:after], handed the empty array, complete
    without throwing and leave it empty, [validate] returns
    [valid = true] and [errors = []]. *)
Theorem validate_verdict v (input : HookInput.t) :
  let context := parseInput input in
  (forall w res w',
      Validator.validate v input w = (Returned res, w') ->
      (valid res = true <-> errors res = []))
  /\ (Forall (fun rule => returns (shouldRun rule context) false)
        (Validator.rules v) ->
      completes (callHook (Validator.hooks v) "validate:before"
                   (contextArgs context)) ->
      (forall w, exists r w',
          callHook (Validator.hooks v) "validate:after" (afterArgs context)
            {| liveWorld := w; liveErrors := [] |}
          = (Returned r, {| liveWorld := w'; liveErrors := [] |})) ->
      returns (Validator.validate v input) {| valid := true; errors := [] |}).
Proof.
  intros context. split.
  - intros w res w' H.
    apply validate_inv in H as (r0 & w1 & pushed & w2 & r & s & _ & _ & _ & _ & ->).
    cbn. rewrite Nat.eqb_eq. apply length_zero_iff_nil.
  - intros Hskip Hbefore Hafter w.
    destruct (Hbefore {| liveWorld := w; liveErrors := [] |}) as (r0 & s0 & E0).
    destruct (runRules_all_skip (Validator.hooks v) context _ [] Hskip
                (liveWorld s0)) as (w2 & E1).
    destruct (Hafter w2) as (r1 & w3 & E2).
    exists w3.
    apply (validate_returned v input w r0 (liveWorld s0) [] w2 r1
             {| liveWorld := w3; liveErrors := [] |}); try assumption.
    now apply detached_returned.
Qed.

(** C2, as the code has it: when rule [A] is registered before rule [B],
    each of the two is alone on its [validate:<name>] channel, both
    apply, and the handlers of [validate:after] leave the array as they
    find it, the [errors] of a result that [validate] returns are, in
    this order: what the rules registered before [A] contributed, the
    diagnostics of [A] in their order, what the rules between the two
    contributed, the diagnostics of [B] in their order, what the rules
    registered after [B] contributed; and a rule whose [shouldRun]
    returns false leaves the aggregate as it was, with nothing run after
    its [shouldRun]. *)
Theorem validate_rule_order v (input : HookInput.t) (A B : ValidationRule World)
    (before between after : list (ValidationRule World))
    (dA dB : list string) w res w' :
  let context := parseInput input in
  Validator.rules v = before ++ A :: between ++ B :: after ->
  handlersOf (Validator.hooks v) (Validator.channel (name A))
    = [Validator.ruleHandler A] ->
  handlersOf (Validator.hooks v) (Validator.channel (name B))
    = [Validator.ruleHandler B] ->
  returns (shouldRun A context) true -> returns (validate A context) dA ->
  returns (shouldRun B context) true -> returns (validate B context) dB ->
  afterKeepsErrors v context ->
  Validator.validate v input w = (Returned res, w') ->
  (exists r0 w0 p w1 w2 m w3 w4 s w5,
      detached (callHook (Validator.hooks v) "validate:before"
                  (contextArgs context)) w = (Returned r0, w0)
      /\ Validator.runRules (Validator.hooks v) context before [] w0
         = (Returned p, w1)
      /\ Validator.runRule (Validator.hooks v) context [] A w1
         = (Returned dA, w2)
      /\ Validator.runRules (Validator.hooks v) context between [] w2
         = (Returned m, w3)
      /\ Validator.runRule (Validator.hooks v) context [] B w3
         = (Returned dB, w4)
      /\ Validator.runRules (Validator.hooks v) context after [] w4
         = (Returned s, w5)
      /\ errors res = p ++ dA ++ m ++ dB ++ s)
  /\ (forall rule errs w0 w1,
        shouldRun rule context w0 = (Returned false, w1) ->
        Validator.runRule (Validator.hooks v) context errs rule w0
        = (Returned errs, w1)).
Proof.
  intros context Hrules HchA HchB HsA HvA HsB HvB Hkeep H. split.
  - apply validate_inv in H
      as (r0 & w0 & pushed & wz & r & st & Hbefore & Hrun & Hafter & _ & ->).
    fold context in Hbefore, Hrun, Hafter.
    apply Hkeep in Hafter. cbn in Hafter. cbn [errors]. rewrite Hafter.
    rewrite Hrules in Hrun. rewrite runRules_app in Hrun.
    apply bind_inv_returned in Hrun as (e1 & w1 & H1 & Hrun).
    cbn [Validator.runRules] in Hrun.
    apply bind_inv_returned in Hrun as (e2 & w2 & H2 & Hrun).
    rewrite runRules_app in Hrun.
    apply bind_inv_returned in Hrun as (e3 & w3 & H3 & Hrun).
    cbn [Validator.runRules] in Hrun.
    apply bind_inv_returned in Hrun as (e4 & w4 & H4 & Hrun).
    apply runRule_from_empty in H2 as (dA' & -> & H2).
    apply runRules_from_empty in H3 as (m & -> & H3).
    apply runRule_from_empty in H4 as (dB' & -> & H4).
    apply runRules_from_empty in Hrun as (s & -> & H5).
    assert (dA' = dA) as ->.
    { now apply (runRule_contributes _ _ [] _ dA) in H2. }
    assert (dB' = dB) as ->.
    { now apply (runRule_contributes _ _ [] _ dB) in H4. }
    exists r0, w0, e1, w1, w2, m, w3, w4, s, wz.
    repeat split; try assumption. now rewrite <- !app_assoc.
  - intros rule errs w0 w1. apply runRule_skips.
Qed.

(** C3: on an engine built by registrations, a registered rule whose
    [shouldRun] throws, or whose [shouldRun] returns true and whose
    [validate] throws, makes the engine's [validate] throw: no result is
    returned. *)
Theorem validate_rule_exception_propagates v (input : HookInput.t) rule :
  built v ->
  rule ∈ Validator.rules v ->
  raises (shouldRun rule (parseInput input))
  \/ (returns (shouldRun rule (parseInput input)) true
      /\ raises (validate rule (parseInput input))) ->
  raises (Validator.validate v input).
Proof.
  intros Hb Hin Hr. unfold Validator.validate.
  apply raises_bind_r. intros _. apply raises_bind_l.
  apply runRules_raises with (rule := rule); try assumption.
  now apply built_registered.
Qed.

(** C9: two rules with the same name register one after the other without
    failure: both are in the rule list and both handlers are on the shared
    channel, in registration order; a call of that channel runs the
    handlers that were there, then the first rule's, then the second
    rule's, each finished before the next starts. *)
Theorem registerRule_same_name v (A B : ValidationRule World)
    (args : HookArgs) w :
  name A = name B ->
  let v2 := Validator.registerRule (Validator.registerRule v A) B in
  let shared := Validator.channel (name A) in
  Validator.rules v2 = Validator.rules v ++ [A; B]
  /\ handlersOf (Validator.hooks v2) shared
     = handlersOf (Validator.hooks v) shared
         ++ [Validator.ruleHandler A; Validator.ruleHandler B]
  /\ callHook (Validator.hooks v2) shared args w
     = (callHook (Validator.hooks v) shared args ;;;
        Validator.ruleHandler A args ;;;
        Validator.ruleHandler B args) w.
Proof.
  intros Hname v2 shared.
  assert (Hh : handlersOf (Validator.hooks v2) shared
     = (handlersOf (Validator.hooks v) shared ++ [Validator.ruleHandler A])
         ++ [Validator.ruleHandler B]).
  { subst v2 shared. cbn [Validator.hooks Validator.registerRule].
    rewrite <- Hname, !handlersOf_hook. now rewrite !decide_True by reflexivity. }
  repeat split.
  - subst v2. cbn. now rewrite <- app_assoc.
  - rewrite Hh. now rewrite <- app_assoc.
  - unfold callHook. rewrite Hh, serialTaskCaller_snoc.
    rewrite <- (bind_assoc _ (fun _ => Validator.ruleHandler A args)
                  (fun _ => Validator.ruleHandler B args)).
    apply bind_ext_l. intros w0. apply serialTaskCaller_snoc.
Qed.
End EngineClaims.

(** ** The engine on concrete rules *)

(** Two rules that do not apply, on an engine without observers. *)
Lemma validate_verdict_witness :
  exists w',
    Validator.validate
      (registerAll Validator.createValidator
         [constantRule "never-a" false ["unused"];
          constantRule "never-b" false []])
      (writeRequest "x.ts" "ok") tt
    = (Returned {| valid := true; errors := [] |}, w').
Proof.
  apply (proj2 (validate_verdict
                  (registerAll Validator.createValidator
                     [constantRule "never-a" false ["unused"];
                      constantRule "never-b" false []])
                  (writeRequest "x.ts" "ok"))).
  - repeat constructor; intros w; exists w; reflexivity.
  - intros s. exists None, s. reflexivity.
  - intros w. exists None, w. reflexivity.
Defined.

(** C1 fails as stated: every registered rule's [shouldRun] returns false,
    yet a handler a caller attached to [validate:before] throws, and
    [validate] returns no result; or a handler attached to
    [validate:after] pushes a line to the array it is handed, and
    [validate] returns [valid = false] with that line. *)
Lemma validate_observers_interfere :
  let rule : ValidationRule unit := constantRule "never" false ["unused"] in
  let input := writeRequest "x.ts" "ok" in
  let throwing :=
    Validator.addHook (Validator.registerRule Validator.createValidator rule)
      "validate:before" (fun _ => throw "observer failed") in
  let pushing :=
    Validator.addHook (Validator.registerRule Validator.createValidator rule)
      "validate:after"
      (fun _ s =>
         (Returned None,
          {| liveWorld := liveWorld s; liveErrors := liveErrors s ++ ["late"] |})) in
  shouldRun rule (parseInput input) tt = (Returned false, tt)
  /\ Validator.rules throwing = [rule]
  /\ Validator.validate throwing input tt = (Thrown "observer failed", tt)
  /\ Validator.rules pushing = [rule]
  /\ Validator.validate pushing input tt
     = (Returned {| valid := false; errors := ["late"] |}, tt).
Proof. repeat split. Qed.

(** Rules [a], [skipped] and [b], registered in that order under three
    names, on an engine without observers. *)
Lemma validate_rule_order_witness :
  let v : Validator.t unit :=
    registerAll Validator.createValidator
      [constantRule "a" true ["a1"; "a2"];
       constantRule "skipped" false ["never"];
       constantRule "b" true ["b1"]] in
  let context := parseInput (writeRequest "x.ts" "ok") in
  (exists r0 w0 p w1 w2 m w3 w4 s w5,
      detached (callHook (Validator.hooks v) "validate:before"
                  (contextArgs context)) tt = (Returned r0, w0)
      /\ Validator.runRules (Validator.hooks v) context [] [] w0
         = (Returned p, w1)
      /\ Validator.runRule (Validator.hooks v) context []
           (constantRule "a" true ["a1"; "a2"]) w1
         = (Returned ["a1"; "a2"], w2)
      /\ Validator.runRules (Validator.hooks v) context
           [constantRule "skipped" false ["never"]] [] w2
         = (Returned m, w3)
      /\ Validator.runRule (Validator.hooks v) context []
           (constantRule "b" true ["b1"]) w3
         = (Returned ["b1"], w4)
      /\ Validator.runRules (Validator.hooks v) context [] [] w4
         = (Returned s, w5)
      /\ ["a1"; "a2"; "b1"] = p ++ ["a1"; "a2"] ++ m ++ ["b1"] ++ s)
  /\ (forall (rule : ValidationRule unit) errs w0 w1,
        shouldRun rule context w0 = (Returned false, w1) ->
        Validator.runRule (Validator.hooks v) context errs rule w0
        = (Returned errs, w1)).
Proof.
  intros v context.
  apply (validate_rule_order v (writeRequest "x.ts" "ok")
           (constantRule "a" true ["a1"; "a2"])
           (constantRule "b" true ["b1"])
           [] [constantRule "skipped" false ["never"]] []
           ["a1"; "a2"] ["b1"] tt
           {| valid := false; errors := ["a1"; "a2"; "b1"] |} tt).
  - reflexivity.
  - reflexivity.
  - reflexivity.
  - intros w; exists w; reflexivity.
  - intros w; exists w; reflexivity.
  - intros w; exists w; reflexivity.
  - intros w; exists w; reflexivity.
  - intros s r s' H. rewrite callHook_quiet in H by reflexivity.
    now injection H as _ <-.
  - reflexivity.
Defined.

(** C2 fails as stated: [A] and [B] are registered in that order under one
    name, both apply and both return a diagnostic; each call of the shared
    channel resolves to what the last handler, [B]'s, returned, so the
    result lists [B]'s diagnostic twice and [A]'s not at all. *)
Lemma validate_same_name_last_wins :
  let A : ValidationRule unit := constantRule "shared" true ["from A"] in
  let B : ValidationRule unit := constantRule "shared" true ["from B"] in
  let v := Validator.registerRule (Validator.registerRule Validator.createValidator A) B in
  let input := writeRequest "x.ts" "ok" in
  Validator.rules v = [A; B]
  /\ shouldRun A (parseInput input) tt = (Returned true, tt)
  /\ validate A (parseInput input) tt = (Returned ["from A"], tt)
  /\ shouldRun B (parseInput input) tt = (Returned true, tt)
  /\ validate B (parseInput input) tt = (Returned ["from B"], tt)
  /\ Validator.validate v input tt
     = (Returned {| valid := false; errors := ["from B"; "from B"] |}, tt).
Proof. repeat split. Qed.

(** A rule that throws from [validate], registered after one that
    returns a diagnostic. *)
Lemma validate_rule_exception_propagates_witness :
  exists e w',
    Validator.validate
      (registerAll Validator.createValidator
         [constantRule "fine" true ["a diagnostic"];
          failingRule "broken" "rule failed"])
      (writeRequest "x.ts" "ok") tt
    = (Thrown e, w').
Proof.
  apply (validate_rule_exception_propagates
           (registerAll Validator.createValidator
              [constantRule "fine" true ["a diagnostic"];
               failingRule "broken" "rule failed"])
           (writeRequest "x.ts" "ok")
           (failingRule "broken" "rule failed")).
  - apply built_register, built_register, built_create.
  - cbn. apply list_elem_of_further, list_elem_of_here.
  - right. split; intros w; [exists w | exists "rule failed", w]; reflexivity.
Defined.

Example validate_failing_rule :
  Validator.validate
    (registerAll Validator.createValidator
       [constantRule "fine" true ["a diagnostic"];
        failingRule "broken" "rule failed"])
    (writeRequest "x.ts" "ok") tt
  = (Thrown "rule failed", tt).
Proof. reflexivity. Qed.

(** Two journal-keeping rules of one name, on a fresh engine: a call of
    the shared channel runs [A]'s handler, then [B]'s. *)
Lemma registerRule_same_name_witness :
  let A := tracingRule "shared" "A" ["from A"] in
  let B := tracingRule "shared" "B" ["from B"] in
  let v2 := Validator.registerRule (Validator.registerRule Validator.createValidator A) B in
  let args := contextArgs (parseInput (writeRequest "x.ts" "ok")) in
  Validator.rules v2 = [A; B]
  /\ handlersOf (Validator.hooks v2) "validate:shared"
     = [Validator.ruleHandler A; Validator.ruleHandler B]
  /\ callHook (Validator.hooks v2) "validate:shared" args
       {| liveWorld := []; liveErrors := [] |}
     = (Returned (Some ["from B"]),
        {| liveWorld := ["A.validate"; "B.validate"]; liveErrors := [] |}).
Proof.
  intros A B v2 args.
  destruct (registerRule_same_name Validator.createValidator A B args
              {| liveWorld := []; liveErrors := [] |} eq_refl)
    as (Hr & Hh & Hc).
  split; [exact Hr | split; [exact Hh | exact Hc]].
Defined.

(** A validation call on two applicable rules of one name: the journal
    shows each call of the shared channel running both handlers, in
    registration order. *)
Example validate_same_name_journal :
  Validator.validate
    (registerAll Validator.createValidator
       [tracingRule "shared" "A" ["from A"];
        tracingRule "shared" "B" ["from B"]])
    (writeRequest "x.ts" "ok") []
  = (Returned {| valid := false; errors := ["from B"; "from B"] |},
     ["A.shouldRun"; "A.validate"; "B.validate";
      "B.shouldRun"; "A.validate"; "B.validate"]).
Proof. reflexivity. Qed.

(** The scenarios of the specification: a write that contains
    [console.log] is rejected with one diagnostic, a clean one passes. *)
Example validate_console_log :
  Validator.validate (registerAll Validator.createValidator [noConsoleLog])
    (writeRequest "x.ts" "console.log(1)") tt
  = (Returned {| valid := false; errors := ["console.log is not allowed"] |}, tt).
Proof. reflexivity. Qed.

Example validate_clean_write :
  Validator.validate (registerAll Validator.createValidator [noConsoleLog])
    (writeRequest "x.ts" "ok") tt
  = (Returned {| valid := true; errors := [] |}, tt).
Proof. reflexivity. Qed.

(** ** Rule discovery *)

Lemma typeof_string (v : JsValue) :
  String.eqb (typeof v) "string" = true <-> exists s, v = JsString s.
Proof.
  destruct v; cbn; split; intros H; try discriminate; eauto;
    destruct H as [s' H]; discriminate.
Qed.

Lemma typeof_function (v : JsValue) :
  String.eqb (typeof v) "function" = true <-> exists f, v = JsFunction f.
Proof.
  destruct v; cbn; split; intros H; try discriminate; eauto;
    destruct H as [s' H]; discriminate.
Qed.

(** The structural check accepts exactly the objects that have a string
    [name], a string [description], a function [shouldRun] and a function
    [validate]. *)
Lemma isValidationRule_iff (obj : JsValue) :
  isValidationRule obj = true <->
  exists props n d f g,
    obj = JsObject props
    /\ lookupProp props "name" = JsString n
    /\ lookupProp props "description" = JsString d
    /\ lookupProp props "shouldRun" = JsFunction f
    /\ lookupProp props "validate" = JsFunction g.
Proof.
  unfold isValidationRule. rewrite !andb_true_iff.
  rewrite !typeof_string, !typeof_function. split.
  - intros (((((Ht & Ho) & [n Hn]) & [d Hd]) & [f Hf]) & [g Hg]).
    destruct obj; try discriminate. exists props, n, d, f, g. now cbn in *.
  - intros (props & n & d & f & g & -> & Hn & Hd & Hf & Hg). cbn.
    repeat split; eauto.
Qed.



(** A file outside the working directory is never excluded. *)
Lemma ignored_outside (cwd : list string) (file : string) :
  escapes (relativeTo cwd (splitPath file)) = true ->
  ignored cwd file = false.
Proof. intros Hesc. unfold ignored. cbn zeta. now rewrite Hesc. Qed.

Section LoaderFacts.
Context {World : Type}.
Implicit Types (env : LoaderEnv World) (s : LoaderState World).

Lemma glob_returned env pattern s matched w' :
  globMatches env pattern (world s) = (Returned matched, w') ->
  glob env pattern s
  = (Returned (List.filter (fun file => negb (ignored (workingDirectory env) file)) matched),
     {| world := w'; console := console s |}).
Proof. intros H. unfold glob, bind, liftWorld. now rewrite H. Qed.

Lemma glob_thrown env pattern s e w' :
  globMatches env pattern (world s) = (Thrown e, w') ->
  glob env pattern s = (Thrown e, {| world := w'; console := console s |}).
Proof. intros H. unfold glob, bind, liftWorld. now rewrite H. Qed.

(** A module that loads: its exports that pass the check are added. *)
Lemma loadFile_returned env rules file s exports w' :
  importValues env file (world s) = (Returned exports, w') ->
  loadFile env rules file s
  = (Returned (rules ++ List.filter isValidationRule exports),
     {| world := w'; console := console s |}).
Proof. intros H. unfold loadFile, try_catch, bind, liftWorld. now rewrite H. Qed.

(** A module that fails to load: a warning, and the rules as they were. *)
Lemma loadFile_thrown env rules file s e w' :
  importValues env file (world s) = (Thrown e, w') ->
  loadFile env rules file s
  = (Returned rules,
     {| world := w';
        console := console s ++ [console_warn (loadFailure file) e] |}).
Proof. intros H. unfold loadFile, try_catch, bind, liftWorld. now rewrite H. Qed.

Lemma loadFile_completes env rules file : completes (loadFile env rules file).
Proof.
  intros s. destruct (importValues env file (world s)) as [[exports|e] w'] eqn:E.
  - rewrite (loadFile_returned _ _ _ _ _ _ E). eauto.
  - rewrite (loadFile_thrown _ _ _ _ _ _ E). eauto.
Qed.

Lemma loadFiles_completes env ruleFiles rules :
  completes (loadFiles env ruleFiles rules).
Proof.
  revert rules. induction ruleFiles as [|file ruleFiles IH]; intros rules.
  - intros s. now exists rules, s.
  - cbn [loadFiles]. apply completes_bind; [apply loadFile_completes | apply IH].
Qed.

Lemma loadRules_completes env rulesDir : completes (loadRules env rulesDir).
Proof.
  intros s. unfold loadRules, try_catch.
  destruct (globMatches env (rulesDir +:+ "/**/*.{ts,js}") (world s))
    as [[matched|e] w'] eqn:E.
  - rewrite (bind_returned _ _ _ _ _ (glob_returned _ _ _ _ _ E)).
    destruct (loadFiles_completes env
                (List.filter
                 (fun file => negb (ignored (workingDirectory env) file)) matched)
              []
                {| world := w'; console := console s |}) as (rules & s' & ->).
    eauto.
  - rewrite (bind_thrown _ _ _ _ _ (glob_thrown _ _ _ _ _ E)). cbn. eauto.
Qed.

Lemma loadRules_enumeration_fails env rulesDir s e w' :
  globMatches env (rulePattern rulesDir) (world s) = (Thrown e, w') ->
  loadRules env rulesDir s
  = (Returned [],
     {| world := w';
        console := console s ++ [console_error "Error loading rules:" e] |}).
Proof.
  intros E. unfold loadRules, try_catch.
  now rewrite (bind_thrown _ _ _ _ _ (glob_thrown _ _ _ _ _ E)).
Qed.

Lemma loadFiles_table env (modules : string -> outcome (list JsValue)) :
  (forall file, importsAs env file (modules file)) ->
  forall ruleFiles rules s, exists w',
    loadFiles env ruleFiles rules s
    = (Returned (rules ++ collected modules ruleFiles),
       {| world := w'; console := console s ++ warnings modules ruleFiles |}).
Proof.
  intros Htable ruleFiles.
  induction ruleFiles as [|file ruleFiles IH]; intros rules s.
  - exists (world s). cbn. rewrite !app_nil_r. now destruct s.
  - cbn [loadFiles]. specialize (Htable file). unfold importsAs in Htable.
    unfold collected, warnings. cbn [flat_map].
    fold (collected modules ruleFiles). fold (warnings modules ruleFiles).
    destruct (modules file) as [exports|e].
    + destruct (Htable (world s)) as (w1 & E).
      rewrite (bind_returned _ _ _ _ _ (loadFile_returned _ rules _ _ _ _ E)).
      destruct (IH (rules ++ List.filter isValidationRule exports)
                  {| world := w1; console := console s |}) as (w2 & ->).
      exists w2. cbn. now rewrite <- app_assoc.
    + destruct (Htable (world s)) as (w1 & E).
      rewrite (bind_returned _ _ _ _ _ (loadFile_thrown _ rules _ _ _ _ E)).
      destruct (IH rules
                  {| world := w1;
                     console := console s ++ [console_warn (loadFailure file) e] |})
        as (w2 & ->).
      exists w2. cbn. now rewrite <- app_assoc.
Qed.

Lemma loadRules_table env rulesDir (modules : string -> outcome (list JsValue))
    (matched : list string) :
  returns (globMatches env (rulePattern rulesDir)) matched ->
  (forall file, importsAs env file (modules file)) ->
  forall s, exists w',
    let ruleFiles :=
      List.filter
        (fun file => negb (ignored (workingDirectory env) file)) matched in
    loadRules env rulesDir s
    = (Returned (collected modules ruleFiles),
       {| world := w'; console := console s ++ warnings modules ruleFiles |}).
Proof.
  intros Hglob Htable s. destruct (Hglob (world s)) as (w1 & E).
  unfold loadRules, try_catch. fold (rulePattern rulesDir).
  rewrite (bind_returned _ _ _ _ _ (glob_returned _ _ _ _ _ E)).
  destruct (loadFiles_table env modules Htable
              (List.filter
                 (fun file => negb (ignored (workingDirectory env) file)) matched)
              []
              {| world := w1; console := console s |}) as (w2 & ->).
  exists w2. reflexivity.
Qed.

(** No file that the [ignore] list excludes is among the files [glob]
    hands to the loop. *)
Lemma glob_excludes env pattern s ruleFiles s' file :
  glob env pattern s = (Returned ruleFiles, s') ->
  In file ruleFiles ->
  ignored (workingDirectory env) file = false.
Proof.
  unfold glob. intros H Hin.
  apply bind_inv_returned in H as (matched & s1 & _ & H).
  injection H as <- _. apply filter_In in Hin as [_ Hin].
  now apply negb_true_iff in Hin.
Qed.
End LoaderFacts.

Section LoaderClaims.
Context {World : Type}.
Implicit Types (env : LoaderEnv World) (s : LoaderState World).

(** C4: [loadRules] never throws.  When the enumeration of the directory
    throws it returns the empty list, after a line on the error console.
    When the import of a file throws, a warning is written and the loop
    goes on with the rules collected so far; so, for imports that do not
    depend on the world, the result holds the rules of every file that
    loads and the console one warning for every file that does not. *)
Theorem loadRules_tolerant env (rulesDir : string) :
  completes (loadRules env rulesDir)
  /\ (forall s e w',
        globMatches env (rulePattern rulesDir) (world s) = (Thrown e, w') ->
        loadRules env rulesDir s
        = (Returned [],
           {| world := w';
              console := console s ++ [console_error "Error loading rules:" e] |}))
  /\ (forall s rules file ruleFiles e w',
        importValues env file (world s) = (Thrown e, w') ->
        loadFiles env (file :: ruleFiles) rules s
        = loadFiles env ruleFiles rules
            {| world := w';
               console := console s ++ [console_warn (loadFailure file) e] |})
  /\ (forall (modules : string -> outcome (list JsValue)) matched,
        returns (globMatches env (rulePattern rulesDir)) matched ->
        (forall file, importsAs env file (modules file)) ->
        forall s, exists w',
          let ruleFiles :=
            List.filter
              (fun file => negb (ignored (workingDirectory env) file)) matched in
          loadRules env rulesDir s
          = (Returned (collected modules ruleFiles),
             {| world := w';
                console := console s ++ warnings modules ruleFiles |})).
Proof.
  split; [apply loadRules_completes|].
  split; [apply loadRules_enumeration_fails|].
  split; [|apply loadRules_table].
  intros s rules file ruleFiles e w' E. cbn [loadFiles].
  now rewrite (bind_returned _ _ _ _ _ (loadFile_thrown _ rules _ _ _ _ E)).
Qed.

End LoaderClaims.

(** The directory of the specification's scenario: [rule-a.ts],
    [rule-a.test.ts] and [not-a-rule.ts] yield one rule, from
    [rule-a.ts]. *)
Example loadRules_scenario :
  loadRules
    (directoryEnv "/rules"
       ["/rules/rule-a.ts"; "/rules/rule-a.test.ts"; "/rules/not-a-rule.ts"]
       scenarioModules)
    "/rules" {| world := tt; console := [] |}
  = (Returned [ruleObject "rule-a"], {| world := tt; console := [] |}).
Proof. reflexivity. Qed.

(** A file that fails to load costs a warning and nothing else. *)
Example loadRules_broken_file :
  loadRules
    (directoryEnv "/rules"
       ["/rules/broken.ts"; "/rules/rule-a.ts"] scenarioModules)
    "/rules" {| world := tt; console := [] |}
  = (Returned [ruleObject "rule-a"],
     {| world := tt;
        console := [console_warn "Failed to load rule from /rules/broken.ts:"
                      "SyntaxError"] |}).
Proof. reflexivity. Qed.

Example loadRules_missing_directory :
  loadRules (missingDirectoryEnv "ENOENT") "/nowhere"
    {| world := tt; console := [] |}
  = (Returned [],
     {| world := tt;
        console := [console_error "Error loading rules:" "ENOENT"] |}).
Proof. reflexivity. Qed.

(** The [ignore] list names [.test.ts] and [.spec.ts] only: a test file
    written in JavaScript is loaded like any other file. *)
Example ignored_extensions :
  ignored [] "/rules/rule-a.test.ts" = true
  /\ ignored [] "/rules/rule-a.spec.ts" = true
  /\ ignored [] "/rules/node_modules/pkg/index.js" = true
  /\ ignored [] "/rules/rule-a.test.js" = false
  /\ ignored [] "/rules/rule-a.ts" = false.
Proof. repeat split. Qed.

(** The [ignore] list is read from the working directory: the test file
    of a rules directory is excluded for a process started in the
    project, not for one started beside the rules directory. *)
Example ignored_from_elsewhere :
  ignored ["proj"] "/proj/.claude/rules/rule-a.test.ts" = true
  /\ relativeTo ["proj"; "src"] (splitPath "/proj/.claude/rules/rule-a.test.ts")
     = [".."; ".claude"; "rules"; "rule-a.test.ts"]
  /\ ignored ["proj"; "src"] "/proj/.claude/rules/rule-a.test.ts" = false
  /\ ignored ["proj"; "src"] "/proj/node_modules/pkg/rule.ts" = false.
Proof. repeat split. Qed.


Example isValidationRule_rejects :
  isValidationRule notARule = false
  /\ isValidationRule JsNull = false
  /\ isValidationRule (JsFunction "validate") = false
  /\ isValidationRule (ruleObject "rule-a") = true.
Proof. repeat split. Qed.

(** * Further properties of the engine *)

Section EngineAggregate.
Context {World : Type}.
Implicit Types (v : Validator.t World) (rule : ValidationRule World).
Implicit Types (hs : gmap string (list (Handler World))).
Implicit Types (context : ValidationContext) (errs : list string).

Lemma runRule_stable hs context errs rule (b : bool) (d : list string) :
  handlersOf hs (Validator.channel (name rule)) = [Validator.ruleHandler rule] ->
  returns (shouldRun rule context) b ->
  (b = true -> returns (validate rule context) d) ->
  returns (Validator.runRule hs context errs rule)
    (errs ++ if b then d else []).
Proof.
  intros Hch Hs Hv w. destruct (Hs w) as (w1 & E1).
  unfold Validator.runRule. rewrite (bind_returned _ _ _ _ _ E1).
  destruct b.
  - destruct (Hv eq_refl w1) as (w2 & E2).
    rewrite (bind_ext_l _ _ _ _ (fun w0 => callHook_alone hs rule _ w0 Hch)).
    cbn [arg_context].
    rewrite !bind_assoc, (bind_returned _ _ _ _ _ E2). cbn.
    exists w2. destruct d as [|x d]; cbn; [now rewrite app_nil_r | reflexivity].
  - exists w1. now rewrite app_nil_r.
Qed.

Lemma runRules_stable hs context (rs : list (ValidationRule World))
    (applies : ValidationRule World -> bool)
    (diag : ValidationRule World -> list string) errs :
  Forall (fun rule =>
            handlersOf hs (Validator.channel (name rule))
            = [Validator.ruleHandler rule]
            /\ returns (shouldRun rule context) (applies rule)
            /\ (applies rule = true -> returns (validate rule context) (diag rule)))
         rs ->
  returns (Validator.runRules hs context rs errs)
    (errs ++ flat_map (fun rule => if applies rule then diag rule else []) rs).
Proof.
  intros Hall. revert errs.
  induction Hall as [|rule rs (Hch & Hs & Hv) _ IH]; intros errs.
  - intros w. exists w. cbn. now rewrite app_nil_r.
  - cbn [Validator.runRules flat_map]. rewrite app_assoc.
    apply (returns_bind _ _ (errs ++ if applies rule then diag rule else []));
      [now apply runRule_stable | apply IH].
Qed.

(** X1: on an engine made by registering, on a fresh validator, rules of
    pairwise distinct names, none of them called [before] or [after],
    when each rule's [shouldRun] and [validate] return values that do not
    depend on the world, [validate] returns, and its [errors] are the
    diagnostics of the applicable rules, rule after rule in registration
    order; [valid] tells whether that list is empty. *)
Theorem validate_fresh_aggregate (rs : list (ValidationRule World))
    (input : HookInput.t)
    (applies : ValidationRule World -> bool)
    (diag : ValidationRule World -> list string) :
  NoDup (map name rs) ->
  Forall (fun rule => name rule <> "before" /\ name rule <> "after") rs ->
  Forall (fun rule =>
            returns (shouldRun rule (parseInput input)) (applies rule)
            /\ (applies rule = true ->
                returns (validate rule (parseInput input)) (diag rule))) rs ->
  returns (Validator.validate (registerAll Validator.createValidator rs) input)
    {| valid :=
         Nat.eqb
           (length (flat_map (fun rule => if applies rule then diag rule else []) rs))
           0;
       errors := flat_map (fun rule => if applies rule then diag rule else []) rs |}.
Proof.
  intros Hnd Hnames Hstable w.
  assert (Hb : Forall (fun rule => name rule <> "before") rs)
    by (eapply Forall_impl; [exact Hnames | now intros r [? ?]]).
  assert (Ha : Forall (fun rule => name rule <> "after") rs)
    by (eapply Forall_impl; [exact Hnames | now intros r [? ?]]).
  pose proof (registerAll_lifecycle_quiet rs "before" Hb) as Eb.
  pose proof (registerAll_lifecycle_quiet rs "after" Ha) as Ea.
  assert (Hall : Forall (fun rule =>
            handlersOf (Validator.hooks (registerAll Validator.createValidator rs))
              (Validator.channel (name rule)) = [Validator.ruleHandler rule]
            /\ returns (shouldRun rule (parseInput input)) (applies rule)
            /\ (applies rule = true ->
                returns (validate rule (parseInput input)) (diag rule))) rs).
  { apply Forall_forall. intros rule Hin.
    rewrite Forall_forall in Hstable. destruct (Hstable rule Hin) as [Hs Hv].
    split; [|now split]. apply registerAll_alone; [assumption|].
    now apply list_elem_of_In. }
  destruct (runRules_stable _ (parseInput input) rs applies diag [] Hall w)
    as (w1 & E).
  exists w1.
  apply (validate_returned _ _ w None w
           (flat_map (fun rule => if applies rule then diag rule else []) rs)
           w1 None
           {| liveWorld := w1;
              liveErrors :=
                flat_map (fun rule => if applies rule then diag rule else []) rs |}).
  - apply (detached_returned _ w None {| liveWorld := w; liveErrors := [] |}).
    now apply callHook_quiet.
  - now rewrite registerAll_rules.
  - now apply callHook_quiet.
Qed.

(** X2: the diagnostics a rule contributes are those of the last handler
    on its channel.  A handler that a caller attaches to the channel of a
    registered rule therefore replaces what the rule's own [validate]
    returned: with nothing when it returns [undefined] or an empty array,
    with its own array otherwise. *)
Theorem runRule_last_handler_decides hs context errs rule
    (earlier : list (Handler World)) (fn : Handler World)
    (r : option (list string)) w errs' w' :
  handlersOf hs (Validator.channel (name rule)) = earlier ++ [fn] ->
  returns (shouldRun rule context) true ->
  returns (fn (contextArgs context)) r ->
  Validator.runRule hs context errs rule w = (Returned errs', w') ->
  errs' = errs ++ default [] r.
Proof.
  intros Hch Hs Hfn. unfold Validator.runRule.
  destruct (Hs w) as (w1 & E1). rewrite (bind_returned _ _ _ _ _ E1).
  unfold callHook. rewrite Hch. intros H.
  apply bind_inv_returned in H as (result & w2 & Hcall & H).
  apply detached_inv_returned in Hcall as (s2 & Hcall & _).
  rewrite serialTaskCaller_snoc in Hcall.
  apply bind_inv_returned in Hcall as (r0 & s3 & _ & Hcall).
  destruct (Hfn s3) as (s4 & E4). unfold contextArgs in E4.
  rewrite E4 in Hcall. injection Hcall as <- _.
  destruct r as [[|x l]|]; cbn in H; injection H as <- _;
    cbn; now rewrite ?app_nil_r.
Qed.

(** X3: the channel of a rule called [before] or [after] is the engine's
    own [validate:before] or [validate:after] channel, so the rule's
    [validate] runs there whatever its [shouldRun] says: when it throws,
    every validation call on the engine throws. *)
Theorem validate_lifecycle_name_collision v (input : HookInput.t) rule :
  built v ->
  rule ∈ Validator.rules v ->
  name rule = "before" \/ name rule = "after" ->
  raises (validate rule (parseInput input)) ->
  raises (Validator.validate v input).
Proof.
  intros Hb Hin Hname Hraise.
  pose proof (built_registered v Hb rule Hin) as Hh.
  assert (Hfn : forall args, arg_context args = parseInput input ->
            raises (Validator.ruleHandler rule args)).
  { intros args Hctx. unfold Validator.ruleHandler. rewrite Hctx.
    now apply raises_onWorld, raises_bind_l. }
  unfold Validator.validate, callHook. destruct Hname as [Hn | Hn].
  - rewrite Hn in Hh. apply raises_bind_l, raises_detached.
    eapply serialTaskCaller_raises; [exact Hh | now apply Hfn].
  - rewrite Hn in Hh. apply raises_bind_r. intros _.
    apply raises_bind_r. intros errs. apply raises_bind_l, raises_sharing.
    eapply serialTaskCaller_raises; [exact Hh | now apply Hfn].
Qed.

(** X4: what the rules registered first have contributed stays, in place,
    at the head of the returned [errors], whatever the rules registered
    later do: when the handlers of [validate:after] leave the array as
    they find it, the aggregate of the first rules, run in the world the
    call has reached after [validate:before], is a prefix of the
    [errors] of the result. *)
Theorem validate_keeps_earlier_diagnostics v (input : HookInput.t)
    (first later : list (ValidationRule World)) w res w' :
  Validator.rules v = first ++ later ->
  afterKeepsErrors v (parseInput input) ->
  Validator.validate v input w = (Returned res, w') ->
  exists r0 w0 errs w1,
    detached (callHook (Validator.hooks v) "validate:before"
                (contextArgs (parseInput input))) w = (Returned r0, w0)
    /\ Validator.runRules (Validator.hooks v) (parseInput input) first [] w0
       = (Returned errs, w1)
    /\ errs `prefix_of` errors res.
Proof.
  intros Hrules Hkeep H.
  apply validate_inv in H
    as (r0 & w0 & pushed & w2 & r & s & Hbefore & Hrun & Hafter & _ & ->).
  apply Hkeep in Hafter. cbn in Hafter. cbn [errors]. rewrite Hafter.
  rewrite Hrules, runRules_app in Hrun.
  apply bind_inv_returned in Hrun as (errs & u & H1 & H2).
  apply runRules_extends in H2 as [d ->].
  exists r0, w0, errs, u. repeat split; try assumption. now exists d.
Qed.
End EngineAggregate.

(** Three rules of three names on a fresh engine; the second does not
    apply. *)
Lemma validate_fresh_aggregate_witness :
  exists w',
    Validator.validate
      (registerAll Validator.createValidator
         [constantRule "a" true ["a1"];
          constantRule "skipped" false ["never"];
          constantRule "b" true ["b1"; "b2"]])
      (writeRequest "x.ts" "ok") tt
    = (Returned {| valid := false; errors := ["a1"; "b1"; "b2"] |}, w').
Proof.
  apply (validate_fresh_aggregate
           [constantRule "a" true ["a1"];
            constantRule "skipped" false ["never"];
            constantRule "b" true ["b1"; "b2"]]
           (writeRequest "x.ts" "ok")
           (fun rule => negb (String.eqb (name rule) "skipped"))
           (fun rule => if String.eqb (name rule) "a" then ["a1"] else ["b1"; "b2"])).
  - apply (bool_decide_unpack _). vm_compute. exact I.
  - repeat constructor; discriminate.
  - constructor; [split; [|intros _]; intros w; exists w; reflexivity|].
    constructor; [split; [intros w; exists w; reflexivity | discriminate]|].
    constructor; [split; [|intros _]; intros w; exists w; reflexivity|].
    constructor.
Defined.

(** A rule that returns a diagnostic, and an observer on its channel that
    returns nothing. *)
Lemma runRule_last_handler_decides_witness :
  ["earlier"] = ["earlier"] ++ default [] None.
Proof.
  apply (runRule_last_handler_decides
           (Validator.hooks
              (Validator.addHook
                 (Validator.registerRule Validator.createValidator
                    (constantRule "my-rule" true ["a diagnostic"]))
                 "validate:my-rule" (fun _ => ret None)))
           (parseInput (writeRequest "x.ts" "ok")) ["earlier"]
           (constantRule "my-rule" true ["a diagnostic"])
           [Validator.ruleHandler (constantRule "my-rule" true ["a diagnostic"])]
           (fun _ => ret None) None tt ["earlier"] tt).
  - reflexivity.
  - intros w; exists w; reflexivity.
  - intros w; exists w; reflexivity.
  - reflexivity.
Defined.

(** The observer silences the rule: the call passes. *)
Example validate_observer_silences_rule :
  Validator.validate
    (Validator.addHook
       (Validator.registerRule Validator.createValidator
          (constantRule "my-rule" true ["a diagnostic"]))
       "validate:my-rule" (fun _ => ret None))
    (writeRequest "x.ts" "ok") tt
  = (Returned {| valid := true; errors := [] |}, tt).
Proof. reflexivity. Qed.

(** A rule called [before] that never applies and whose [validate]
    throws. *)
Lemma validate_lifecycle_name_collision_witness :
  exists e w',
    Validator.validate
      (Validator.registerRule Validator.createValidator
         {| name := "before"; description := "never applies";
            shouldRun := fun _ => ret false;
            validate := fun _ => throw "from the rule called before" |})
      (writeRequest "x.ts" "ok") tt
    = (Thrown e, w').
Proof.
  apply (validate_lifecycle_name_collision
           (Validator.registerRule Validator.createValidator
              {| name := "before"; description := "never applies";
                 shouldRun := fun _ => ret false;
                 validate := fun _ => throw "from the rule called before" |})
           (writeRequest "x.ts" "ok")
           {| name := "before"; description := "never applies";
              shouldRun := fun _ => ret false;
              validate := fun _ => throw "from the rule called before" |}).
  - apply built_register, built_create.
  - cbn. apply list_elem_of_here.
  - left. reflexivity.
  - intros w. exists "from the rule called before", w. reflexivity.
Defined.

Lemma validate_keeps_earlier_diagnostics_witness :
  let v : Validator.t unit :=
    registerAll Validator.createValidator
      [constantRule "a" true ["a1"]; constantRule "b" true ["b1"]] in
  exists r0 w0 errs w1,
    detached (callHook (Validator.hooks v) "validate:before"
                (contextArgs (parseInput (writeRequest "x.ts" "ok")))) tt
    = (Returned r0, w0)
    /\ Validator.runRules (Validator.hooks v)
         (parseInput (writeRequest "x.ts" "ok"))
         [constantRule "a" true ["a1"]] [] w0
       = (Returned errs, w1)
    /\ errs `prefix_of` ["a1"; "b1"].
Proof.
  intros v.
  apply (validate_keeps_earlier_diagnostics v (writeRequest "x.ts" "ok")
           [constantRule "a" true ["a1"]] [constantRule "b" true ["b1"]]
           tt {| valid := false; errors := ["a1"; "b1"] |} tt).
  - reflexivity.
  - intros s r s' H. rewrite callHook_quiet in H by reflexivity.
    now injection H as _ <-.
  - reflexivity.
Defined.

(** * Further properties of the renderer and of the project root *)

(** X5: [formatErrors()] is the empty string only for an empty [errors]:
    a result with diagnostics always renders to a text that starts with
    the header, hence is not empty. *)
Theorem formatErrors_empty_iff (r : ValidationResult) :
  formatErrors r = "" <-> errors r = [].
Proof.
  split.
  - unfold formatErrors. destruct (errors r) as [|e l]; [reflexivity|].
    cbn [length Nat.eqb]. unfold errorsHeader, nl. intros H.
    cbv [String.append Ascii.ascii_of_nat Ascii.ascii_of_pos] in H.
    discriminate.
  - intros H. unfold formatErrors. now rewrite H.
Qed.

(** X6: the project root does not depend on where, below it, the search
    starts: when the search from [start] finds [dir], the search from any
    directory between [dir] and [start] finds [dir] too; in particular
    the search from [dir] finds [dir]. *)
Theorem findProjectRoot_same_from_between (existsSync : Path -> bool)
    (start dir p : Path) :
  findProjectRoot existsSync start = Some dir ->
  dir `prefix_of` p -> p `prefix_of` start ->
  findProjectRoot existsSync p = Some dir.
Proof.
  intros Hfound Hdp Hps.
  apply findProjectRoot_some in Hfound as (_ & Hroot & Hclaude & Hnear).
  induction p as [|seg p IH] using rev_ind.
  - apply prefix_nil_inv in Hdp. contradiction.
  - rewrite findProjectRoot_snoc.
    destruct (prefix_snoc_cases _ _ _ Hdp) as [-> | Hdp'].
    + now rewrite Hclaude.
    + rewrite (Hnear (p ++ [seg]) Hps).
      * apply IH; [assumption|]. etrans; [|exact Hps]. now apply prefix_app_r.
      * apply prefix_length in Hdp'. rewrite length_app. cbn. lia.
Qed.

Lemma findProjectRoot_same_from_between_witness :
  findProjectRoot (fun q => bool_decide (q = ["proj"; ".claude"]))
    ["proj"; "src"] = Some ["proj"].
Proof.
  apply (findProjectRoot_same_from_between
           (fun q => bool_decide (q = ["proj"; ".claude"]))
           ["proj"; "src"; "core"] ["proj"] ["proj"; "src"]).
  - reflexivity.
  - now exists ["src"].
  - now exists ["core"].
Defined.

(** * Further properties of rule discovery *)

Lemma lookupFrom_app (found : JsValue) (props more : list (string * JsValue))
    (key : string) :
  lookupFrom found (props ++ more) key
  = lookupFrom (lookupFrom found props key) more key.
Proof.
  revert found. induction props as [|[k v] props IH]; intros found; cbn;
    [reflexivity | apply IH].
Qed.

Lemma lookupFrom_absent (found : JsValue) (more : list (string * JsValue))
    (key : string) :
  Forall (fun kv => fst kv <> key) more -> lookupFrom found more key = found.
Proof.
  intros Hall. revert found.
  induction Hall as [|[k v] more Hk _ IH]; intros found; cbn; [reflexivity|].
  cbn in Hk. destruct (String.eqb_spec k key); [contradiction | apply IH].
Qed.

Lemma lookupProp_app_other (props more : list (string * JsValue)) (key : string) :
  Forall (fun kv => fst kv <> key) more ->
  lookupProp (props ++ more) key = lookupProp props key.
Proof.
  intros Hall. unfold lookupProp. rewrite lookupFrom_app.
  now apply lookupFrom_absent.
Qed.

(** X7: the structural check reads four properties and nothing else:
    defining further properties on an object, under names other than
    [name], [description], [shouldRun] and [validate], changes neither
    its acceptance nor its rejection. *)
Theorem isValidationRule_extra_props (props more : list (string * JsValue)) :
  Forall (fun kv =>
            ~ In (fst kv) ["name"; "description"; "shouldRun"; "validate"])
         more ->
  isValidationRule (JsObject (props ++ more)) = isValidationRule (JsObject props).
Proof.
  intros Hall.
  assert (Hkey : forall key,
            In key ["name"; "description"; "shouldRun"; "validate"] ->
            lookupProp (props ++ more) key = lookupProp props key).
  { intros key Hin. apply lookupProp_app_other.
    eapply Forall_impl; [exact Hall|]. intros kv Hkv E. apply Hkv.
    now rewrite E. }
  unfold isValidationRule. cbn [toBoolean typeof getProp].
  rewrite !Hkey; [reflexivity | cbn; tauto..].
Qed.

Lemma isValidationRule_extra_props_witness :
  isValidationRule
    (JsObject ([("name", JsString "rule-a");
                ("description", JsString "a rule");
                ("shouldRun", JsFunction "shouldRun");
                ("validate", JsFunction "validate")]
               ++ [("severity", JsString "warning"); ("tags", JsNull)]))
  = isValidationRule
      (JsObject [("name", JsString "rule-a");
                 ("description", JsString "a rule");
                 ("shouldRun", JsFunction "shouldRun");
                 ("validate", JsFunction "validate")]).
Proof.
  apply (isValidationRule_extra_props
           [("name", JsString "rule-a");
            ("description", JsString "a rule");
            ("shouldRun", JsFunction "shouldRun");
            ("validate", JsFunction "validate")]
           [("severity", JsString "warning"); ("tags", JsNull)]).
  repeat constructor; cbn; intros H; repeat destruct H as [H | H];
    try discriminate; contradiction.
Defined.

(** A later property called [validate] replaces the function: the object
    no longer passes. *)
Example isValidationRule_overwritten :
  isValidationRule
    (JsObject [("name", JsString "rule-a");
               ("description", JsString "a rule");
               ("shouldRun", JsFunction "shouldRun");
               ("validate", JsFunction "validate");
               ("validate", JsNull)]) = false.
Proof. reflexivity. Qed.

Section LoaderInvariants.
Context {World : Type}.
Implicit Types (env : LoaderEnv World) (s : LoaderState World).

Lemma loadFile_cases env rules file s :
  (exists exports w',
      importValues env file (world s) = (Returned exports, w')
      /\ loadFile env rules file s
         = (Returned (rules ++ List.filter isValidationRule exports),
            {| world := w'; console := console s |}))
  \/ (exists e w',
      importValues env file (world s) = (Thrown e, w')
      /\ loadFile env rules file s
         = (Returned rules,
            {| world := w';
               console := console s ++ [console_warn (loadFailure file) e] |})).
Proof.
  destruct (importValues env file (world s)) as [[exports|e] w'] eqn:E.
  - left. exists exports, w'. split; [reflexivity|]. now apply loadFile_returned.
  - right. exists e, w'. split; [reflexivity|]. now apply loadFile_thrown.
Qed.

Lemma loadFiles_invariant env ruleFiles rules s r s' :
  loadFiles env ruleFiles rules s = (r, s') ->
  console s `prefix_of` console s'
  /\ exists found,
       r = Returned found
       /\ (Forall (fun obj => isValidationRule obj = true) rules ->
           Forall (fun obj => isValidationRule obj = true) found)
       /\ length (console s') <= length (console s) + length ruleFiles.
Proof.
  revert rules s. induction ruleFiles as [|file ruleFiles IH]; intros rules s H.
  - injection H as <- <-. split; [reflexivity|]. exists rules. cbn.
    repeat split; auto. lia.
  - cbn [loadFiles] in H.
    destruct (loadFile_cases env rules file s)
      as [(exports & w1 & _ & E) | (e & w1 & _ & E)];
      rewrite (bind_returned _ _ _ _ _ E) in H;
      apply IH in H as (Hpre & found & -> & Hall & Hlen); cbn in *.
    + split; [assumption|]. exists found. repeat split; [|lia].
      intros Hrules. apply Hall. apply Forall_app. split; [assumption|].
      apply Forall_forall. intros obj Hin.
      apply list_elem_of_In, filter_In in Hin. tauto.
    + split; [etrans; [|exact Hpre]; now apply prefix_app_r|].
      exists found. repeat split; [assumption|].
      rewrite length_app in Hlen. cbn in Hlen. lia.
Qed.

Lemma loadRules_results_pass env (rulesDir : string) s rules s' :
  loadRules env rulesDir s = (Returned rules, s') ->
  Forall (fun obj => isValidationRule obj = true) rules.
Proof.
  unfold loadRules, try_catch.
  destruct (globMatches env (rulesDir +:+ "/**/*.{ts,js}") (world s))
    as [[matched|e] w'] eqn:E.
  - rewrite (bind_returned _ _ _ _ _ (glob_returned _ _ _ _ _ E)).
    destruct (loadFiles env _ [] _) as [r s1] eqn:El.
    apply loadFiles_invariant in El as (_ & found & -> & Hall & _).
    intros [= <- _]. apply Hall. constructor.
  - rewrite (bind_thrown _ _ _ _ _ (glob_thrown _ _ _ _ _ E)). cbn.
    intros [= <- _]. constructor.
Qed.

(** X8: whatever the files export and whatever fails, every value
    [loadRules] returns passes the structural check: it is an object with
    a string [name], a string [description], a function [shouldRun] and a
    function [validate]. *)
Theorem loadRules_only_rules env (rulesDir : string) s rules s' :
  loadRules env rulesDir s = (Returned rules, s') ->
  Forall (fun obj =>
            isValidationRule obj = true
            /\ exists props n d f g,
                 obj = JsObject props
                 /\ lookupProp props "name" = JsString n
                 /\ lookupProp props "description" = JsString d
                 /\ lookupProp props "shouldRun" = JsFunction f
                 /\ lookupProp props "validate" = JsFunction g) rules.
Proof.
  intros H. apply loadRules_results_pass in H.
  eapply Forall_impl; [exact H|].
  intros obj Hobj. split; [assumption|].
  now apply isValidationRule_iff.
Qed.

(** X9: [loadRules] only adds to the console, and at most one line for
    each file that [glob] matched, or one line in all when the
    enumeration fails: what was written before stays, in place. *)
Theorem loadRules_console_grows env (rulesDir : string) s r s' :
  loadRules env rulesDir s = (r, s') ->
  console s `prefix_of` console s'
  /\ (forall matched w',
        globMatches env (rulePattern rulesDir) (world s) = (Returned matched, w') ->
        length (console s') <= length (console s) + length matched)
  /\ (forall e w',
        globMatches env (rulePattern rulesDir) (world s) = (Thrown e, w') ->
        console s' = console s ++ [console_error "Error loading rules:" e]).
Proof.
  unfold loadRules, try_catch, rulePattern.
  destruct (globMatches env (rulesDir +:+ "/**/*.{ts,js}") (world s))
    as [[matched|e] w'] eqn:E.
  - rewrite (bind_returned _ _ _ _ _ (glob_returned _ _ _ _ _ E)).
    destruct (loadFiles env _ [] _) as [r1 s1] eqn:El.
    apply loadFiles_invariant in El as (Hpre & found & -> & _ & Hlen).
    intros [= <- <-]. cbn in *. repeat split; [assumption | | discriminate].
    intros matched' w'' [= <- _].
    pose proof (filter_length_le (fun file => negb (ignored (workingDirectory env) file)) matched).
    lia.
  - rewrite (bind_thrown _ _ _ _ _ (glob_thrown _ _ _ _ _ E)). cbn.
    intros [= <- <-]. cbn. repeat split; [now apply prefix_app_r | discriminate |].
    now intros e' w'' [= <- _].
Qed.

Lemma loadFiles_ext (env1 env2 : LoaderEnv World) ruleFiles rules s :
  (forall file w, ignored (workingDirectory env1) file = false ->
      importValues env1 file w = importValues env2 file w) ->
  Forall (fun file => ignored (workingDirectory env1) file = false) ruleFiles ->
  loadFiles env1 ruleFiles rules s = loadFiles env2 ruleFiles rules s.
Proof.
  intros Himp Hall. revert rules s.
  induction Hall as [|file ruleFiles Hfile _ IH]; intros rules s; [reflexivity|].
  cbn [loadFiles].
  assert (E : loadFile env1 rules file s = loadFile env2 rules file s).
  { unfold loadFile, try_catch, bind, liftWorld. now rewrite (Himp file _ Hfile). }
  unfold bind at 1 2. rewrite E.
  destruct (loadFile env2 rules file s) as [[rules'|e] s1]; [apply IH | reflexivity].
Qed.

(** X10: a file that the [ignore] list excludes, read from the working
    directory of the process, is never imported: what [loadRules]
    returns and does is the same in any two surroundings that have the
    same working directory, enumerate the same files and agree on the
    import of every file that is not excluded. *)
Theorem loadRules_never_imports_ignored (env1 env2 : LoaderEnv World)
    (rulesDir : string) s :
  workingDirectory env1 = workingDirectory env2 ->
  (forall pattern w, globMatches env1 pattern w = globMatches env2 pattern w) ->
  (forall file w, ignored (workingDirectory env1) file = false ->
      importValues env1 file w = importValues env2 file w) ->
  loadRules env1 rulesDir s = loadRules env2 rulesDir s.
Proof.
  intros Hcwd Hglob Himp.
  assert (E : forall pattern s0, glob env1 pattern s0 = glob env2 pattern s0).
  { intros pattern s0. unfold glob, bind, liftWorld. now rewrite Hglob, Hcwd. }
  assert (Hm : bind (glob env1 (rulesDir +:+ "/**/*.{ts,js}"))
                 (fun ruleFiles => loadFiles env1 ruleFiles []) s
               = bind (glob env2 (rulesDir +:+ "/**/*.{ts,js}"))
                   (fun ruleFiles => loadFiles env2 ruleFiles []) s).
  { rewrite (bind_ext_l _ (glob env2 (rulesDir +:+ "/**/*.{ts,js}"))) by apply E.
    destruct (glob env2 (rulesDir +:+ "/**/*.{ts,js}") s)
      as [[ruleFiles|e] s1] eqn:Eg.
    - rewrite !(bind_returned _ _ _ _ _ Eg).
      apply loadFiles_ext; [assumption|].
      apply Forall_forall. intros file Hin. apply list_elem_of_In in Hin.
      rewrite Hcwd. exact (glob_excludes _ _ _ _ _ _ Eg Hin).
    - now rewrite !(bind_thrown _ _ _ _ _ Eg). }
  unfold loadRules, try_catch. now rewrite Hm.
Qed.
End LoaderInvariants.

Lemma loadRules_only_rules_witness :
  Forall (fun obj =>
            isValidationRule obj = true
            /\ exists props n d f g,
                 obj = JsObject props
                 /\ lookupProp props "name" = JsString n
                 /\ lookupProp props "description" = JsString d
                 /\ lookupProp props "shouldRun" = JsFunction f
                 /\ lookupProp props "validate" = JsFunction g)
    [ruleObject "rule-a"].
Proof.
  apply (loadRules_only_rules
           (directoryEnv "/rules"
              ["/rules/rule-a.ts"; "/rules/rule-a.test.ts"; "/rules/not-a-rule.ts"]
              scenarioModules)
           "/rules" {| world := tt; console := [] |}
           [ruleObject "rule-a"] {| world := tt; console := [] |}).
  reflexivity.
Defined.

(** A console that already holds a line, and a directory with one file
    that fails to load. *)
Lemma loadRules_console_grows_witness :
  [console_error "earlier" "line"]
    `prefix_of` [console_error "earlier" "line";
                 console_warn "Failed to load rule from /rules/broken.ts:"
                   "SyntaxError"].
Proof.
  apply (loadRules_console_grows
           (directoryEnv "/rules" ["/rules/broken.ts"; "/rules/rule-a.ts"]
              scenarioModules)
           "/rules"
           {| world := tt; console := [console_error "earlier" "line"] |}
           (Returned [ruleObject "rule-a"])
           {| world := tt;
              console := [console_error "earlier" "line";
                          console_warn "Failed to load rule from /rules/broken.ts:"
                            "SyntaxError"] |}).
  reflexivity.
Defined.

(** Two directories, seen from ['/'], that differ only in what importing
    the test file would do. *)
Lemma loadRules_never_imports_ignored_witness :
  loadRules
    (directoryEnv "/rules" ["/rules/rule-a.ts"; "/rules/rule-a.test.ts"]
       scenarioModules)
    "/rules" {| world := tt; console := [] |}
  = loadRules
      (directoryEnv "/rules" ["/rules/rule-a.ts"; "/rules/rule-a.test.ts"]
         (fun file =>
            if String.eqb file "/rules/rule-a.test.ts"
            then Thrown "the test file was imported"
            else scenarioModules file))
      "/rules" {| world := tt; console := [] |}.
Proof.
  apply (loadRules_never_imports_ignored
           (directoryEnv "/rules" ["/rules/rule-a.ts"; "/rules/rule-a.test.ts"]
              scenarioModules)
           (directoryEnv "/rules" ["/rules/rule-a.ts"; "/rules/rule-a.test.ts"]
              (fun file =>
                 if String.eqb file "/rules/rule-a.test.ts"
                 then Thrown "the test file was imported"
                 else scenarioModules file))
           "/rules" {| world := tt; console := [] |}).
  - reflexivity.
  - reflexivity.
  - intros file w Hfile. cbn.
    destruct (String.eqb_spec file "/rules/rule-a.test.ts") as [-> | _];
      [discriminate | reflexivity].
Defined.

(** * The command line *)

Section CliFacts.
Context {World : Type}.
Implicit Types (env : CliEnv World) (s : CliState World).

(** The state of the command once discovery is over. *)
Lemma liftLoader_loadRules env (rulesPath : string) s :
  exists rules ls,
    loadRules (loaderEnv env) rulesPath {| world := cliWorld s; console := [] |}
    = (Returned rules, ls)
    /\ liftLoader (loadRules (loaderEnv env) rulesPath) s
       = (Returned rules,
          {| cliWorld := world ls;
             output := output s ++ map loader_line (console ls) |}).
Proof.
  destruct (loadRules_completes (loaderEnv env) rulesPath
              {| world := cliWorld s; console := [] |}) as (rules & ls & E).
  exists rules, ls. split; [assumption|]. unfold liftLoader. now rewrite E.
Qed.

Lemma length_zero_eqb {A} (l : list A) :
  Nat.eqb (length l) 0 = true <-> l = [].
Proof. rewrite Nat.eqb_eq. apply length_zero_iff_nil. Qed.

(** Every way [validate]'s [run] can end, branch by branch. *)
Lemma validate_run_cases env (a : validateCommand.args) s r s' :
  validateCommand.run env a s = (r, s') ->
  match findProjectRoot (existsSyncIn env (cliWorld s)) (cwd env) with
  | None =>
      r = Returned (exited 1) /\ cliWorld s' = cliWorld s
      /\ exists l1 l2, output s' = output s ++ [stderr_text l1; stderr_text l2]
  | Some root =>
      exists rules ls,
        loadRules (loaderEnv env)
          (resolve env root (validateCommand.rulesDir a))
          {| world := cliWorld s; console := [] |} = (Returned rules, ls)
        /\ let out := output s ++ map loader_line (console ls) in
           (rules = [] /\ r = Returned (exited 1) /\ cliWorld s' = world ls
            /\ exists l1 l2, output s' = out ++ [stderr_text l1; stderr_text l2])
           \/ (rules <> [] /\ validateCommand.stdin a = false
               /\ r = Returned (exited 1) /\ cliWorld s' = world ls
               /\ output s' = out ++ [stderr_text "❌ --stdin is required"])
           \/ (rules <> [] /\ validateCommand.stdin a = true
               /\ exists e w2,
                    readInput env (world ls) = (Thrown e, w2)
                    /\ r = Returned (exited 1) /\ cliWorld s' = w2
                    /\ output s'
                       = out ++ [stderr_text "❌ Failed to parse stdin input";
                                 stderr_value e])
           \/ (rules <> [] /\ validateCommand.stdin a = true
               /\ exists input w2,
                    readInput env (world ls) = (Returned input, w2)
                    /\ ((exists e,
                            Validator.validate (engineOf env rules) input w2
                            = (Thrown e, cliWorld s')
                            /\ r = Thrown e /\ output s' = out)
                        \/ (exists res,
                              Validator.validate (engineOf env rules) input w2
                              = (Returned res, cliWorld s')
                              /\ r = Returned (exited (if valid res then 0 else 2))
                              /\ output s'
                                 = out ++ (if valid res then []
                                           else [stderr_text (formatErrors res)]))))
  end.
Proof.
  unfold validateCommand.run. unfold bind at 1. unfold projectRoot at 1.
  destruct (findProjectRoot (existsSyncIn env (cliWorld s)) (cwd env))
    as [root|].
  - destruct (liftLoader_loadRules env
                (resolve env root (validateCommand.rulesDir a)) s)
      as (rules & ls & Eload & Elift).
    rewrite (bind_returned _ _ _ _ _ Elift). intros H.
    exists rules, ls. split; [assumption|]. cbn zeta.
    destruct (Nat.eqb (length rules) 0) eqn:Elen.
    + apply length_zero_eqb in Elen. left. cbv [bind print ret] in H. cbn in H.
      injection H as <- <-. cbn. repeat split; auto.
      eexists _, _. now rewrite <- app_assoc.
    + assert (Hne : rules <> []).
      { intros ->. discriminate. }
      right. destruct (validateCommand.stdin a).
      * right. unfold bind at 1 in H. unfold readRequest, try_catch in H.
        unfold bind at 1 in H. unfold liftToCli at 1 in H. cbn [cliWorld output] in H.
        destruct (readInput env (world ls)) as [[input|e] w2] eqn:Eread.
        -- right. repeat split; auto. exists input, w2. split; [reflexivity|].
           cbv [ret] in H. unfold bind at 1 in H. unfold liftToCli at 1 in H.
           cbn [cliWorld output] in H.
           destruct (Validator.validate (engineOf env rules) input w2)
             as [[res|e] w3] eqn:Eval.
           ++ right. exists res. destruct (valid res); cbn in H.
              ** injection H as <- <-. cbn. now rewrite app_nil_r.
              ** cbv [bind print] in H. injection H as <- <-. now cbn.
           ++ left. exists e. injection H as <- <-. now cbn.
        -- left. repeat split; auto. exists e, w2. split; [reflexivity|].
           cbv [bind print ret] in H. cbn in H. injection H as <- <-. cbn.
           repeat split. now rewrite <- app_assoc.
      * left. cbv [bind print ret] in H. cbn in H. injection H as <- <-.
        now cbn.
  - cbv [bind print ret]. cbn. intros [= <- <-]. cbn. repeat split.
    eexists _, _. now rewrite <- app_assoc.
Qed.
End CliFacts.

Lemma formatErrors_nonempty (r : ValidationResult) :
  errors r <> [] -> formatErrors r <> "".
Proof.
  unfold formatErrors. destruct (errors r) as [|e l]; [congruence|].
  intros _. cbn [length Nat.eqb]. unfold errorsHeader, nl.
  cbv [String.append Ascii.ascii_of_nat Ascii.ascii_of_pos]. discriminate.
Qed.

Lemma validate_result_consistent {World} (v : Validator.t World)
    (input : HookInput.t) w res w' :
  Validator.validate v input w = (Returned res, w') ->
  (valid res = true -> errors res = [])
  /\ (valid res = false -> errors res <> []).
Proof.
  intros H.
  apply validate_inv in H as (r0 & w1 & pushed & w2 & r & s & _ & _ & _ & _ & ->).
  cbn. destruct (liveErrors s); split; cbn; congruence.
Qed.

Section CliClaims.
Context {World : Type}.
Implicit Types (env : CliEnv World) (s : CliState World).

(** X11: the [validate] command ends in one of four ways: [exit(0)],
    [exit(1)], [exit(2)], or the exception thrown by the validation call
    that the command made: the call on the engine holding the rules that
    discovery returned from the rules directory under the project root,
    for the request that was read, in the world as the reading left it.
    Discovery and the reading of the request never make it throw. *)
Theorem validate_run_outcomes env (a : validateCommand.args) s r s' :
  validateCommand.run env a s = (r, s') ->
  r = Returned (exited 0) \/ r = Returned (exited 1) \/ r = Returned (exited 2)
  \/ exists e root rules ls input w2,
       findProjectRoot (existsSyncIn env (cliWorld s)) (cwd env) = Some root
       /\ loadRules (loaderEnv env)
            (resolve env root (validateCommand.rulesDir a))
            {| world := cliWorld s; console := [] |} = (Returned rules, ls)
       /\ rules <> []
       /\ readInput env (world ls) = (Returned input, w2)
       /\ Validator.validate (engineOf env rules) input w2
          = (Thrown e, cliWorld s')
       /\ r = Thrown e
       /\ output s' = output s ++ map loader_line (console ls).
Proof.
  intros H. apply validate_run_cases in H.
  destruct (findProjectRoot _ _) as [root|].
  - destruct H as (rules & ls & Eload & [H | [H | [H | H]]]).
    + right. left. tauto.
    + right. left. tauto.
    + right. left. destruct H as (_ & _ & e & w2 & _ & -> & _). reflexivity.
    + destruct H as (Hne & _ & input & w2 & Eread
                     & [(e & Hv & -> & Hout) | (res & _ & -> & _)]).
      * right. right. right. exists e, root, rules, ls, input, w2.
        repeat split; assumption.
      * destruct (valid res); auto.
  - right. left. tauto.
Qed.

(** X12: [exit(0)] means that a validation ran and passed: the project
    root was found, discovery returned at least one rule, the request was
    read, and the validation call on the engine holding the discovered
    rules returned a result without diagnostics; the command itself then
    printed nothing. *)
Theorem validate_exit_zero env (a : validateCommand.args) s s' :
  validateCommand.run env a s = (Returned (exited 0), s') ->
  exists root rules ls input w2 res,
    findProjectRoot (existsSyncIn env (cliWorld s)) (cwd env) = Some root
    /\ loadRules (loaderEnv env) (resolve env root (validateCommand.rulesDir a))
         {| world := cliWorld s; console := [] |} = (Returned rules, ls)
    /\ rules <> []
    /\ readInput env (world ls) = (Returned input, w2)
    /\ Validator.validate (engineOf env rules) input w2
       = (Returned res, cliWorld s')
    /\ valid res = true /\ errors res = []
    /\ output s' = output s ++ map loader_line (console ls).
Proof.
  intros H. apply validate_run_cases in H.
  destruct (findProjectRoot _ _) as [root|]; [|destruct H as [[=] _]].
  destruct H as (rules & ls & Eload & [H | [H | [H | H]]]).
  - destruct H as (_ & [=] & _).
  - destruct H as (_ & _ & [=] & _).
  - destruct H as (_ & _ & e & w2 & _ & [=] & _).
  - destruct H as (Hne & _ & input & w2 & Eread
                   & [(e & _ & [=] & _) | (res & Hv & Hr & Hout)]).
    destruct (valid res) eqn:Evalid; [|discriminate].
    exists root, rules, ls, input, w2, res.
    destruct (validate_result_consistent _ _ _ _ _ Hv) as [Hok _].
    rewrite app_nil_r in Hout. repeat split; auto.
Qed.

(** X13: [exit(2)] means that a validation ran and failed: the validation
    call on the discovered rules returned a result with diagnostics, and
    the last thing written is the rendering of that result on the error
    stream, which is not empty. *)
Theorem validate_exit_two env (a : validateCommand.args) s s' :
  validateCommand.run env a s = (Returned (exited 2), s') ->
  exists root rules ls input w2 res,
    findProjectRoot (existsSyncIn env (cliWorld s)) (cwd env) = Some root
    /\ loadRules (loaderEnv env) (resolve env root (validateCommand.rulesDir a))
         {| world := cliWorld s; console := [] |} = (Returned rules, ls)
    /\ readInput env (world ls) = (Returned input, w2)
    /\ Validator.validate (engineOf env rules) input w2
       = (Returned res, cliWorld s')
    /\ valid res = false /\ errors res <> []
    /\ output s'
       = output s ++ map loader_line (console ls)
           ++ [stderr_text (formatErrors res)]
    /\ formatErrors res <> "".
Proof.
  intros H. apply validate_run_cases in H.
  destruct (findProjectRoot _ _) as [root|]; [|destruct H as [[=] _]].
  destruct H as (rules & ls & Eload & [H | [H | [H | H]]]).
  - destruct H as (_ & [=] & _).
  - destruct H as (_ & _ & [=] & _).
  - destruct H as (_ & _ & e & w2 & _ & [=] & _).
  - destruct H as (Hne & _ & input & w2 & Eread
                   & [(e & _ & [=] & _) | (res & Hv & Hr & Hout)]).
    destruct (valid res) eqn:Evalid; [discriminate|].
    exists root, rules, ls, input, w2, res.
    destruct (validate_result_consistent _ _ _ _ _ Hv) as [_ Hbad].
    rewrite <- app_assoc in Hout. repeat split; auto.
    apply formatErrors_nonempty. auto.
Qed.

(** X14: when discovery returns no rule, the [validate] command writes
    its two lines and exits with code 1 without reading the request: the
    world is as discovery left it. *)
Theorem validate_no_rules_exits_one env (a : validateCommand.args) s
    (root : Path) ls :
  findProjectRoot (existsSyncIn env (cliWorld s)) (cwd env) = Some root ->
  loadRules (loaderEnv env) (resolve env root (validateCommand.rulesDir a))
    {| world := cliWorld s; console := [] |} = (Returned [], ls) ->
  validateCommand.run env a s
  = (Returned (exited 1),
     {| cliWorld := world ls;
        output :=
          output s ++ map loader_line (console ls)
            ++ [stderr_text
                  ("❌ No validation rules found in "
                     +:+ resolve env root (validateCommand.rulesDir a));
                stderr_text
                  ("   Create rule files in "
                     +:+ validateCommand.rulesDir a +:+ "/")] |}).
Proof.
  intros Eroot Eload. unfold validateCommand.run.
  unfold bind at 1. unfold projectRoot at 1. rewrite Eroot.
  assert (Elift : liftLoader
            (loadRules (loaderEnv env)
               (resolve env root (validateCommand.rulesDir a))) s
          = (Returned [],
             {| cliWorld := world ls;
                output := output s ++ map loader_line (console ls) |})).
  { unfold liftLoader. now rewrite Eload. }
  rewrite (bind_returned _ _ _ _ _ Elift). cbv [bind print ret]. cbn.
  now rewrite <- !app_assoc.
Qed.
End CliClaims.

(** The scenarios of the specification, through the command: a write
    that contains [console.log] exits with code 2 and the rendering on
    the error stream, a clean write exits with code 0, an unreadable
    request with code 1. *)
Example validate_run_rejects :
  validateCommand.run demoEnv demoArgs
    (atStart (Some (writeRequest "x.ts" "console.log(1)")))
  = (Returned (exited 2),
     {| cliWorld := Some (writeRequest "x.ts" "console.log(1)");
        output := [stderr_text
                     (nl +:+ "⚠️  VALIDATION ERRORS:" +:+ nl +:+ nl
                        +:+ "console.log is not allowed")] |}).
Proof. reflexivity. Qed.

Example validate_run_accepts :
  validateCommand.run demoEnv demoArgs (atStart (Some (writeRequest "x.ts" "ok")))
  = (Returned (exited 0),
     {| cliWorld := Some (writeRequest "x.ts" "ok"); output := [] |}).
Proof. reflexivity. Qed.

Example validate_run_unreadable_request :
  validateCommand.run demoEnv demoArgs (atStart None)
  = (Returned (exited 1),
     {| cliWorld := None;
        output := [stderr_text "❌ Failed to parse stdin input";
                   stderr_value "SyntaxError: JSON Parse error"] |}).
Proof. reflexivity. Qed.

(** A project whose one rule throws from [validate]. *)
Lemma validate_run_outcomes_witness :
  @Thrown Termination "rule failed" = Returned (exited 0)
  \/ @Thrown Termination "rule failed" = Returned (exited 1)
  \/ @Thrown Termination "rule failed" = Returned (exited 2)
  \/ exists e root rules ls input w2,
       findProjectRoot
         (existsSyncIn brokenRuleEnv (Some (writeRequest "x.ts" "ok")))
         (cwd brokenRuleEnv) = Some root
       /\ loadRules (loaderEnv brokenRuleEnv)
            (resolve brokenRuleEnv root ".claude/rules")
            {| world := Some (writeRequest "x.ts" "ok"); console := [] |}
          = (Returned rules, ls)
       /\ rules <> []
       /\ readInput brokenRuleEnv (world ls) = (Returned input, w2)
       /\ Validator.validate (engineOf brokenRuleEnv rules) input w2
          = (Thrown e, Some (writeRequest "x.ts" "ok"))
       /\ @Thrown Termination "rule failed" = Thrown e
       /\ @nil OutputLine = [] ++ map loader_line (console ls).
Proof.
  apply (validate_run_outcomes brokenRuleEnv demoArgs
           (atStart (Some (writeRequest "x.ts" "ok")))
           (Thrown "rule failed")
           {| cliWorld := Some (writeRequest "x.ts" "ok"); output := [] |}).
  reflexivity.
Defined.

Lemma validate_exit_zero_witness :
  exists root rules ls input w2 res,
    findProjectRoot (existsSyncIn demoEnv (Some (writeRequest "x.ts" "ok")))
      (cwd demoEnv) = Some root
    /\ loadRules (loaderEnv demoEnv) (resolve demoEnv root ".claude/rules")
         {| world := Some (writeRequest "x.ts" "ok"); console := [] |}
       = (Returned rules, ls)
    /\ rules <> []
    /\ readInput demoEnv (world ls) = (Returned input, w2)
    /\ Validator.validate (engineOf demoEnv rules) input w2
       = (Returned res, Some (writeRequest "x.ts" "ok"))
    /\ valid res = true /\ errors res = []
    /\ @nil OutputLine = [] ++ map loader_line (console ls).
Proof.
  apply (validate_exit_zero demoEnv demoArgs
           (atStart (Some (writeRequest "x.ts" "ok")))
           {| cliWorld := Some (writeRequest "x.ts" "ok"); output := [] |}).
  reflexivity.
Defined.

Lemma validate_exit_two_witness :
  exists root rules ls input w2 res,
    findProjectRoot
      (existsSyncIn demoEnv (Some (writeRequest "x.ts" "console.log(1)")))
      (cwd demoEnv) = Some root
    /\ loadRules (loaderEnv demoEnv) (resolve demoEnv root ".claude/rules")
         {| world := Some (writeRequest "x.ts" "console.log(1)"); console := [] |}
       = (Returned rules, ls)
    /\ readInput demoEnv (world ls) = (Returned input, w2)
    /\ Validator.validate (engineOf demoEnv rules) input w2
       = (Returned res, Some (writeRequest "x.ts" "console.log(1)"))
    /\ valid res = false /\ errors res <> []
    /\ [stderr_text
          (nl +:+ "⚠️  VALIDATION ERRORS:" +:+ nl +:+ nl
             +:+ "console.log is not allowed")]
       = [] ++ map loader_line (console ls) ++ [stderr_text (formatErrors res)]
    /\ formatErrors res <> "".
Proof.
  apply (validate_exit_two demoEnv demoArgs
           (atStart (Some (writeRequest "x.ts" "console.log(1)")))
           {| cliWorld := Some (writeRequest "x.ts" "console.log(1)");
              output := [stderr_text
                           (nl +:+ "⚠️  VALIDATION ERRORS:" +:+ nl +:+ nl
                              +:+ "console.log is not allowed")] |}).
  reflexivity.
Defined.

(** A project whose rules directory holds no rule file: the request is
    left unread. *)
Lemma validate_no_rules_exits_one_witness :
  validateCommand.run emptyEnv demoArgs
    (atStart (Some (writeRequest "x.ts" "console.log(1)")))
  = (Returned (exited 1),
     {| cliWorld := Some (writeRequest "x.ts" "console.log(1)");
        output :=
          [stderr_text "❌ No validation rules found in /proj/.claude/rules";
           stderr_text "   Create rule files in .claude/rules/"] |}).
Proof.
  apply (validate_no_rules_exits_one emptyEnv demoArgs
           (atStart (Some (writeRequest "x.ts" "console.log(1)")))
           ["proj"]
           {| world := Some (writeRequest "x.ts" "console.log(1)");
              console := [] |}).
  - reflexivity.
  - reflexivity.
Defined.

Section ListRules.
Context {World : Type}.
Implicit Types (env : CliEnv World) (s : CliState World).

Lemma printRules_output (rules : list JsValue) s :
  listRulesCommand.printRules rules s
  = (Returned tt,
     {| cliWorld := cliWorld s;
        output :=
          output s
            ++ flat_map
                 (fun rule =>
                    [stdout_text ("  • " +:+ stringProp rule "name");
                     stdout_text ("    " +:+ stringProp rule "description" +:+ nl)])
                 rules |}).
Proof.
  revert s. induction rules as [|rule rules IH]; intros s.
  - cbn. rewrite app_nil_r. now destruct s.
  - cbn [listRulesCommand.printRules flat_map].
    cbv [bind print]. cbn [cliWorld output]. rewrite IH. cbn [cliWorld output].
    now rewrite <- !app_assoc.
Qed.

Lemma stringProp_of_rule (obj : JsValue) :
  isValidationRule obj = true ->
  getProp obj "name" = JsString (stringProp obj "name")
  /\ getProp obj "description" = JsString (stringProp obj "description").
Proof.
  intros (props & n & d & f & g & -> & Hn & Hd & _)%isValidationRule_iff.
  unfold stringProp. cbn [getProp]. now rewrite Hn, Hd.
Qed.

(** X15: the [list-rules] command never throws.  Without a project root
    it exits with code 1; otherwise it returns normally, after one
    heading line and then, for every discovered rule in discovery order,
    a line with the rule's [name] and a line with its [description], both
    of which are strings; with no rule it writes its two-line notice
    instead. *)
Theorem listRules_run_outcomes env (a : listRulesCommand.args) s r s' :
  listRulesCommand.run env a s = (r, s') ->
  match findProjectRoot (existsSyncIn env (cliWorld s)) (cwd env) with
  | None => r = Returned (exited 1) /\ cliWorld s' = cliWorld s
  | Some root =>
      let rulesPath := resolve env root (listRulesCommand.rulesDir a) in
      exists rules ls,
        loadRules (loaderEnv env) rulesPath
          {| world := cliWorld s; console := [] |} = (Returned rules, ls)
        /\ r = Returned finished /\ cliWorld s' = world ls
        /\ Forall (fun rule =>
                     getProp rule "name" = JsString (stringProp rule "name")
                     /\ getProp rule "description"
                        = JsString (stringProp rule "description")) rules
        /\ output s'
           = output s ++ map loader_line (console ls)
               ++ match rules with
                  | [] =>
                      [stdout_text
                         (nl +:+ "❌ No validation rules found in "
                             +:+ rulesPath +:+ nl);
                       stdout_text
                         ("Create rule files in "
                            +:+ listRulesCommand.rulesDir a +:+ "/" +:+ nl)]
                  | _ =>
                      stdout_text
                        (nl +:+ "📋 Discovered " +:+ pretty (length rules)
                            +:+ " Validation Rules from "
                            +:+ listRulesCommand.rulesDir a +:+ ":" +:+ nl)
                      :: flat_map
                           (fun rule =>
                              [stdout_text ("  • " +:+ stringProp rule "name");
                               stdout_text
                                 ("    " +:+ stringProp rule "description" +:+ nl)])
                           rules
                  end
  end.
Proof.
  unfold listRulesCommand.run. unfold bind at 1. unfold projectRoot at 1.
  destruct (findProjectRoot (existsSyncIn env (cliWorld s)) (cwd env))
    as [root|].
  - destruct (liftLoader_loadRules env
                (resolve env root (listRulesCommand.rulesDir a)) s)
      as (rules & ls & Eload & Elift).
    rewrite (bind_returned _ _ _ _ _ Elift). intros H.
    exists rules, ls. split; [assumption|].
    assert (Hpass : Forall (fun rule =>
                     getProp rule "name" = JsString (stringProp rule "name")
                     /\ getProp rule "description"
                        = JsString (stringProp rule "description")) rules).
    { eapply Forall_impl; [exact (loadRules_results_pass _ _ _ _ _ Eload)|].
      intros obj. apply stringProp_of_rule. }
    destruct rules as [|rule rules].
    + cbv [bind print ret] in H. cbn in H. injection H as <- <-. cbn.
      repeat split; auto. now rewrite <- !app_assoc.
    + cbn [length Nat.eqb] in H. unfold bind at 1 in H. unfold print at 1 in H.
      cbn [cliWorld output] in H. unfold bind at 1 in H.
      rewrite printRules_output in H. cbv [ret] in H. cbn [cliWorld output] in H.
      injection H as <- <-. cbn [cliWorld output].
      repeat split; auto. rewrite <- !app_assoc. reflexivity.
  - cbv [bind print ret]. cbn. intros [= <- <-]. now cbn.
Qed.
End ListRules.

Example listRules_run_demo :
  listRulesCommand.run demoEnv listArgs (atStart None)
  = (Returned finished,
     {| cliWorld := None;
        output :=
          [stdout_text
             (nl +:+ "📋 Discovered 1 Validation Rules from .claude/rules:" +:+ nl);
           stdout_text "  • rule-a";
           stdout_text ("    a rule" +:+ nl)] |}).
Proof. reflexivity. Qed.

Lemma listRules_run_outcomes_witness :
  exists rules ls,
    loadRules (loaderEnv demoEnv) "/proj/.claude/rules"
      {| world := None; console := [] |} = (Returned rules, ls)
    /\ @Returned Termination finished = Returned finished
    /\ @None HookInput.t = world ls
    /\ Forall (fun rule =>
                 getProp rule "name" = JsString (stringProp rule "name")
                 /\ getProp rule "description"
                    = JsString (stringProp rule "description")) rules
    /\ [stdout_text
          (nl +:+ "📋 Discovered 1 Validation Rules from .claude/rules:" +:+ nl);
        stdout_text "  • rule-a";
        stdout_text ("    a rule" +:+ nl)]
       = [] ++ map loader_line (console ls)
           ++ match rules with
              | [] =>
                  [stdout_text
                     (nl +:+ "❌ No validation rules found in "
                         +:+ "/proj/.claude/rules" +:+ nl);
                   stdout_text
                     ("Create rule files in " +:+ ".claude/rules" +:+ "/" +:+ nl)]
              | _ =>
                  stdout_text
                    (nl +:+ "📋 Discovered " +:+ pretty (length rules)
                        +:+ " Validation Rules from "
                        +:+ ".claude/rules" +:+ ":" +:+ nl)
                  :: flat_map
                       (fun rule =>
                          [stdout_text ("  • " +:+ stringProp rule "name");
                           stdout_text
                             ("    " +:+ stringProp rule "description" +:+ nl)])
                       rules
              end.
Proof.
  apply (listRules_run_outcomes demoEnv listArgs (atStart None)
           (Returned finished)
           {| cliWorld := None;
              output :=
                [stdout_text
                   (nl +:+ "📋 Discovered 1 Validation Rules from .claude/rules:"
                       +:+ nl);
                 stdout_text "  • rule-a";
                 stdout_text ("    a rule" +:+ nl)] |}).
  reflexivity.
Defined.

(** * Registration *)

(** X16: registering rules keeps what is there and keeps the order: the
    rule list is the former list followed by the registered rules, none
    dropped even when names repeat, and the handlers of any channel are
    the former handlers followed by one handler for each registered rule
    of that channel's name, in registration order; no other channel is
    touched. *)
Theorem registerAll_keeps_order {World : Type} (v : Validator.t World)
    (rs : list (ValidationRule World)) (hookName : string) :
  Validator.getRules (registerAll v rs) = Validator.getRules v ++ rs
  /\ handlersOf (Validator.getHooks (registerAll v rs)) hookName
     = handlersOf (Validator.getHooks v) hookName
         ++ map Validator.ruleHandler
              (List.filter
                 (fun rule =>
                    bool_decide (Validator.channel (name rule) = hookName))
                 rs).
Proof.
  unfold Validator.getRules, Validator.getHooks.
  split; [apply registerAll_rules | apply registerAll_handlers].
Qed.
